(** * plundrio: download workers, retry policy, progress monitor, dashboard

    A shallow embedding of [internal/download] (worker loop, retry loop,
    transient-error classifier, aria2c supervision and progress monitor)
    and of [internal/server/dashboard.go] (snapshot handler and
    [formatDuration]).

    Conventions.
    - Go [int], [int64] and [time.Duration] values are [Z]; where the code
      can wrap around, the wrap is written out ([wrap_int64]).
    - Go [string] values are [string] (byte strings).
    - A Go [error] interface value is [option error]: [None] is [nil].
    - [float64] values are modelled by the exact rationals ([Q]) they
      approximate; binary rounding is not modelled. Every division below is
      guarded against a zero divisor by the code itself, or its result is
      left out of the model (see [downloadFile]).
    - Effects (logging, sleeping, the coordinator's registry, the
      active-files set) are threaded through an explicit [World]. *)

From Stdlib Require Import ZArith QArith Qround String Ascii List Lia Bool.
From Stdlib Require Import DecimalString Decimal DecimalPos DecimalZ.
From stdpp Require Import base option gmap sets list.

Local Open Scope string_scope.
Local Open Scope Z_scope.

(* ===================================================================== *)
(** ** Strings: the pieces of Go's [strings] and [fmt] the code uses      *)
(* ===================================================================== *)

Module GoStrings.

(** [strings.HasPrefix s p], returning what is left of [s] after [p]. *)
Fixpoint stripPrefix (p s : string) : option string :=
match p with
| EmptyString => Some s
| String a p' =>
    match s with
    | EmptyString => None
    | String b s' => if Ascii.eqb a b then stripPrefix p' s' else None
    end
end.

(** [strings.Contains s substr]: [substr] occurs somewhere in [s]. *)
Fixpoint Contains (s substr : string) : bool :=
match stripPrefix substr s with
| Some _ => true
| None =>
    match s with
    | EmptyString => false
    | String _ s' => Contains s' substr
    end
end.

(** [%d] of [fmt.Sprintf] for an integer. *)
Definition itoa (n : Z) : string := NilZero.string_of_int (Z.to_int n).

End GoStrings.
Import GoStrings.

(* ===================================================================== *)
(** ** Errors                                                             *)
(* ===================================================================== *)

(** The dynamic types of [error] values the package handles.

    - [DownloadError ty text] is a [*DownloadError] whose [Type] field is
      [ty]. The type and its [Error] method are declared in a file of the
      package that is not among the sources; [text] is whatever [Error()]
      renders for the value.
    - [errorString text] is any other leaf error (from the operating
      system, [os/exec], the Put.io client).
    - [wrapError msg err] is the value [fmt.Errorf] builds for a format
      with [%w]: [msg] is the formatted text and [err] the wrapped error. *)
Inductive error : Type :=
| DownloadError (Type_ : string) (text : string)
| errorString (text : string)
| wrapError (msg : string) (err : error).

(** The [Error()] method. *)
Definition Error (e : error) : string :=
  match e with
  | DownloadError _ text => text
  | errorString text => text
  | wrapError msg _ => msg
  end.

(** [errors.Unwrap]. *)
Definition Unwrap (e : error) : option error :=
  match e with
  | wrapError _ inner => Some inner
  | _ => None
  end.

(** [fmt.Errorf(prefix + "%w", err)] for a non-nil [err]. *)
Definition Errorf_w (prefix : string) (err : error) : error :=
  wrapError (prefix ++ Error err) err.

(** The test the worker, the retry loop and the classifier all make: a
    type assertion of [err] to a pointer to [DownloadError], then
    [downloadErr.Type == "DownloadCancelled"]. The assertion is on the
    dynamic type and does not look through wrapping. *)
Definition isDownloadCancelled (e : error) : bool :=
  match e with
  | DownloadError ty _ => String.eqb ty "DownloadCancelled"
  | _ => false
  end.

(** [isTransientError] (retry eligibility). *)
Definition isTransientError (err : option error) : bool :=
  match err with
  | None => false
  | Some e =>
      if isDownloadCancelled e then false
      else if String.eqb (Error e) "connection reset"
              || String.eqb (Error e) "connection refused"
              || String.eqb (Error e) "i/o timeout"
      then true
      else if Contains (Error e) "429"
              || Contains (Error e) "503"
              || Contains (Error e) "504"
              || Contains (Error e) "502"
      then true
      else false
  end.
Arguments isTransientError : simpl never.
Arguments isDownloadCancelled : simpl never.

(** The error's text names one of the three connection failures. *)
Definition isConnectionFailureText (e : error) : Prop :=
  Error e = "connection reset" \/ Error e = "connection refused"
  \/ Error e = "i/o timeout".

(** One of the four HTTP status codes occurs in the error's text. *)
Definition mentionsRetryableStatus (e : error) : Prop :=
  exists code a b, In code ["429"; "502"; "503"; "504"]
                   /\ Error e = a ++ code ++ b.

(* ===================================================================== *)
(** ** Data model                                                         *)
(* ===================================================================== *)

(** [time.Time] as nanoseconds since the zero [Time]; [time.Duration] as
    nanoseconds. *)
Definition Time := Z.
Definition Duration := Z.
Definition Second : Duration := 1000000000.

(** [fileInfo.Size()], [DownloadedSize], ids: [int64]. *)
Definition wrap_int64 (z : Z) : Z := (z + 2 ^ 63) mod 2 ^ 64 - 2 ^ 63.

(** Modelled from the spec: the lifecycle enumeration of a transfer
    ([Pending], [Downloading], [Completed], [Failed], [Cancelled]); of
    its constants only [TransferLifecycleDownloading] is named in the
    sources. *)
Inductive TransferLifecycle : Type :=
| TransferLifecyclePending
| TransferLifecycleDownloading
| TransferLifecycleCompleted
| TransferLifecycleFailed
| TransferLifecycleCancelled.

Definition TransferLifecycle_eqb (a b : TransferLifecycle) : bool :=
  match a, b with
  | TransferLifecyclePending, TransferLifecyclePending
  | TransferLifecycleDownloading, TransferLifecycleDownloading
  | TransferLifecycleCompleted, TransferLifecycleCompleted
  | TransferLifecycleFailed, TransferLifecycleFailed
  | TransferLifecycleCancelled, TransferLifecycleCancelled => true
  | _, _ => false
  end.

(** [sync.RWMutex], as far as the code uses it: the number of read locks
    held. *)
Module RWMutex.
Record t : Type := mk { readers : Z }.
Definition RLock (m : t) : t := mk (readers m + 1).
Definition RUnlock (m : t) : t := mk (readers m - 1).
End RWMutex.

(** The fields of [TransferContext] the sources read or write. *)
Module TransferContext.
Record t : Type := mk {
  ID : Z;
  Name : string;
  State : TransferLifecycle;
  TotalSize : Z;
  DownloadedSize : Z;
  StartTime : Time;
  Mu : RWMutex.t
}.
Definition set_DownloadedSize (v : Z) (c : t) : t :=
  mk (ID c) (Name c) (State c) (TotalSize c) v (StartTime c) (Mu c).
Definition set_Mu (m : RWMutex.t) (c : t) : t :=
  mk (ID c) (Name c) (State c) (TotalSize c) (DownloadedSize c)
     (StartTime c) m.
End TransferContext.

Module Job.
Record t : Type := mk { FileID : Z; Name : string; TransferID : Z }.
End Job.

(** [DownloadState]; [downloaded] and the lock are private fields. *)
Module DownloadState.
Record t : Type := mk {
  FileID : Z;
  Name : string;
  TransferID : Z;
  StartTime : Time;
  Progress : Q;
  downloaded : Z;
  LastProgress : Time
}.
End DownloadState.

(** Structured log entries (zerolog events). *)
Inductive Level : Type := LDebug | LInfo | LWarn | LError.

Inductive LogValue : Type :=
| VStr (s : string)
| VInt (z : Z)
| VFloat (q : Q)
| VErr (e : error).

Record LogEntry : Type := mkLog {
  level : Level;
  fields : list (string * LogValue);
  msg : string
}.

(** Calls into the coordinator whose bodies are not among the sources;
    the model records them in order. *)
Inductive CoordinatorCall : Type :=
| handleFileFailure (transferID : Z)
| handleFileCompletion (transferID fileID : Z).

(** Everything a worker can change. *)
Record World : Type := mkWorld {
  coordinator : gmap Z TransferContext.t;  (* registry behind GetTransferContext *)
  activeFiles : gset Z;                    (* m.activeFiles *)
  logs : list LogEntry;                    (* oldest first *)
  sleeps : list Duration;                  (* arguments of time.Sleep, oldest first *)
  attempts : nat;                          (* calls of downloadFile so far *)
  reports : list CoordinatorCall           (* oldest first *)
}.

(** A small state monad over [World]. *)
Definition M (A : Type) : Type := World -> A * World.
Definition ret {A} (a : A) : M A := fun w => (a, w).
Definition bind {A B} (m : M A) (k : A -> M B) : M B :=
  fun w => let (a, w') := m w in k a w'.

Declare Scope go_scope.
Delimit Scope go_scope with go.
Notation "x <~ m ;; k" := (bind m (fun x => k))
  (at level 100, m at next level, right associativity) : go_scope.
Notation "m ;; k" := (bind m (fun _ => k))
  (at level 100, right associativity) : go_scope.
Local Open Scope go_scope.

Definition Log (lvl : Level) (fs : list (string * LogValue)) (m : string)
  : M unit :=
  fun w => (tt, mkWorld (coordinator w) (activeFiles w)
                        (logs w ++ [mkLog lvl fs m])
                        (sleeps w) (attempts w) (reports w)).

Definition Sleep (d : Duration) : M unit :=
  fun w => (tt, mkWorld (coordinator w) (activeFiles w) (logs w)
                        (sleeps w ++ [d]) (attempts w) (reports w)).

Definition countAttempt : M unit :=
  fun w => (tt, mkWorld (coordinator w) (activeFiles w) (logs w)
                        (sleeps w) (S (attempts w)) (reports w)).

Definition call (c : CoordinatorCall) : M unit :=
  fun w => (tt, mkWorld (coordinator w) (activeFiles w) (logs w)
                        (sleeps w) (attempts w) (reports w ++ [c])).

(** [m.activeFiles.Delete(id)]. *)
Definition activeFiles_Delete (id : Z) : M unit :=
  fun w => (tt, mkWorld (coordinator w) (activeFiles w ∖ {[id]}) (logs w)
                        (sleeps w) (attempts w) (reports w)).

(** Modelled from the spec: [GetTransferContext(id) -> (ctx, found)], a
    lookup in the coordinator's registry of transfer contexts. The
    result is a pointer into the registry: see [writeDownloadedSize]. *)
Definition GetTransferContext (id : Z) : M (option TransferContext.t) :=
  fun w => (coordinator w !! id, w).

(** A write of [v] to the [DownloadedSize] field through the pointer that
    [GetTransferContext] returned for [id]: the registry's entry changes,
    its other fields stay. *)
Definition writeDownloadedSize (id : Z) (v : Z)
    (reg : gmap Z TransferContext.t) : gmap Z TransferContext.t :=
  alter (TransferContext.set_DownloadedSize v) id reg.

Definition storeDownloadedSize (id : Z) (v : Z) : M unit :=
  fun w =>
    (tt, mkWorld (writeDownloadedSize id v (coordinator w))
                 (activeFiles w) (logs w) (sleeps w) (attempts w)
                 (reports w)).

(* ===================================================================== *)
(** ** The download executor                                              *)
(* ===================================================================== *)

Inductive result (A : Type) : Type :=
| Ok (a : A)
| Err (e : error).
Arguments Ok {A} a.
Arguments Err {A} e.

(** What the outside world answers during one call of [downloadFile]:
    the Put.io client, the file system, the aria2c subprocess and the
    shutdown channel. *)
Record Outside : Type := mkOutside {
  GetDownloadURL : result string;   (* m.client.GetDownloadURL(state.FileID) *)
  MkdirAll : option error;          (* os.MkdirAll(targetDir, 0755) *)
  targetExists : bool;              (* os.Stat(targetPath) gave no error *)
  controlFileIsNotExist : bool;     (* os.IsNotExist for targetPath + ".aria2" *)
  Remove : option error;            (* os.Remove(targetPath) *)
  StdoutPipe : option error;
  StderrPipe : option error;
  Start : option error;
  Wait : option error;              (* cmdErr *)
  ctxErr : bool;                    (* ctx.Err() != nil after cmd.Wait() *)
  Stat : result Z                   (* os.Stat(targetPath): fileInfo.Size() *)
}.

Section Executor.

(** The text [NewDownloadCancelledError] renders for a file name and a
    reason; the constructor is declared in a file that is not among the
    sources. *)
Variable cancelledText : string -> string -> string.

(** Modelled from the spec: [NewDownloadCancelledError] builds the
    [Cancelled] outcome, the [DownloadError] whose [Type] is
    ["DownloadCancelled"] that the worker and the retry loop test for. *)
Definition NewDownloadCancelledError (filename reason : string) : error :=
  DownloadError "DownloadCancelled" (cancelledText filename reason).

Definition maxRetries : Z := 3.

(** The two log lines of the success path of [downloadFile]. Log fields
    that hold paths or clock readings (target_path, speed_mbps, duration)
    are left out of the entries. *)
Definition updatedEntry (state : DownloadState.t)
    (totalSize downloadedSize transferTotal : Z) : LogEntry :=
  mkLog LDebug
        [("file_name", VStr (DownloadState.Name state));
         ("transfer_id", VInt (DownloadState.TransferID state));
         ("file_size", VInt totalSize);
         ("transfer_downloaded", VInt downloadedSize);
         ("transfer_total", VInt transferTotal)]
        "Updated transfer with completed file size".

Definition completedEntry (state : DownloadState.t) (totalSize : Z)
  : LogEntry :=
  mkLog LInfo
        [("file_name", VStr (DownloadState.Name state));
         ("size_mb", VFloat (inject_Z totalSize / 1024 / 1024)%Q)]
        "Download completed with aria2c".

Definition logUpdated (state : DownloadState.t)
    (totalSize downloadedSize transferTotal : Z) : M unit :=
  fun w => (tt, mkWorld (coordinator w) (activeFiles w)
                        (logs w ++ [updatedEntry state totalSize
                                      downloadedSize transferTotal])
                        (sleeps w) (attempts w) (reports w)).

Definition logCompleted (state : DownloadState.t) (totalSize : Z) : M unit :=
  fun w => (tt, mkWorld (coordinator w) (activeFiles w)
                        (logs w ++ [completedEntry state totalSize])
                        (sleeps w) (attempts w) (reports w)).

(** [downloadFile], one attempt. The lines the progress monitor logs
    while aria2c runs are modelled separately ([monitorAria2cProgress]). *)
Definition downloadFile (out : Outside) (state : DownloadState.t)
  : M (option error) :=
  countAttempt ;;
  match GetDownloadURL out with
  | Err err => ret (Some (Errorf_w "failed to get download URL: " err))
  | Ok url =>
  match MkdirAll out with
  | Some err => ret (Some (Errorf_w "failed to create directory: " err))
  | None =>
  (if targetExists out && controlFileIsNotExist out then
     Log LInfo [("file_name", VStr (DownloadState.Name state))]
         "Removing existing partial download from previous session" ;;
     match Remove out with
     | Some err =>
         Log LWarn [("file_name", VStr (DownloadState.Name state));
                    ("error", VErr err)]
             "Failed to remove existing file, continuing anyway"
     | None => ret tt
     end
   else ret tt) ;;
  Log LInfo [("file_name", VStr (DownloadState.Name state))]
      "Starting download with aria2c (16 connections)" ;;
  match StdoutPipe out with
  | Some err => ret (Some (Errorf_w "failed to create stdout pipe: " err))
  | None =>
  match StderrPipe out with
  | Some err => ret (Some (Errorf_w "failed to create stderr pipe: " err))
  | None =>
  match Start out with
  | Some err => ret (Some (Errorf_w "failed to start aria2c: " err))
  | None =>
  let cmdErr := Wait out in
  if ctxErr out then
    ret (Some (NewDownloadCancelledError (DownloadState.Name state)
                                         "download stopped"))
  else
  match cmdErr with
  | Some err => ret (Some (Errorf_w "aria2c failed: " err))
  | None =>
  match Stat out with
  | Err err => ret (Some (Errorf_w "failed to verify downloaded file: " err))
  | Ok totalSize =>
  found <~ GetTransferContext (DownloadState.TransferID state) ;;
  match found with
  | Some transferCtx =>
      let sum := wrap_int64 (TransferContext.DownloadedSize transferCtx
                             + totalSize) in
      storeDownloadedSize (DownloadState.TransferID state) sum ;;
      logUpdated state totalSize sum (TransferContext.TotalSize transferCtx)
  | None => ret tt
  end ;;
  logCompleted state totalSize ;;
  ret None
  end end end end end end end.

(** The loop [for attempt := 1; attempt <= maxRetries; attempt++] of
    [downloadWithRetry], entered at [attempt] with [n] iterations left
    ([n = maxRetries - attempt + 1]); [script k] is the outside world
    during attempt [k]. *)
Fixpoint retryLoop (script : Z -> Outside) (state : DownloadState.t)
    (n : nat) (attempt : Z) (lastErr : option error) : M (option error) :=
  match n with
  | O =>
      ret (Some (match lastErr with
                 | Some e =>
                     Errorf_w ("failed after " ++ itoa maxRetries
                               ++ " attempts, last error: ") e
                 | None =>
                     errorString ("failed after " ++ itoa maxRetries
                                  ++ " attempts, last error: %!w(<nil>)")
                 end))
  | S n' =>
      r <~ downloadFile (script attempt) state ;;
      match r with
      | Some err =>
          if isDownloadCancelled err then ret (Some err)
          else
            let lastErr := Some err in
            if negb (isTransientError (Some err)) then
              ret (Some (Errorf_w ("permanent error on attempt "
                                   ++ itoa attempt ++ ": ") err))
            else
              Log LWarn [("file_name", VStr (DownloadState.Name state));
                         ("attempt", VInt attempt);
                         ("error", VErr err)]
                  "Retrying download after error" ;;
              Sleep (Second * attempt) ;;
              retryLoop script state n' (attempt + 1) lastErr
      | None => ret None
      end
  end.

(** [downloadWithRetry]. *)
Definition downloadWithRetry (script : Z -> Outside)
    (state : DownloadState.t) : M (option error) :=
  retryLoop script state (Z.to_nat maxRetries) 1 None.

(** What one [select] of the worker's loop yields. *)
Inductive Received : Type :=
| stopChan                                   (* case <-m.stopChan *)
| jobsClosed                                 (* job, ok := <-m.jobs with !ok *)
| job (j : Job.t) (now : Time) (script : Z -> Outside).
                                             (* a job, the clock at its start,
                                                the world during its attempts *)

(** The [DownloadState] the worker builds for a job at [now]; the other
    fields have their zero values. *)
Definition newDownloadState (j : Job.t) (now : Time) : DownloadState.t :=
  DownloadState.mk (Job.FileID j) (Job.Name j) (Job.TransferID j) now
                   0%Q 0 0.

(** The body of the worker's loop for a received job. *)
Definition processJob (j : Job.t) (now : Time) (script : Z -> Outside)
  : M unit :=
  let state := newDownloadState j now in
  err <~ downloadWithRetry script state ;;
  match err with
  | Some err =>
      if isDownloadCancelled err then
        Log LInfo [("file_name", VStr (Job.Name j))]
            "Download cancelled due to shutdown" ;;
        activeFiles_Delete (Job.FileID j)
      else
        Log LError [("file_name", VStr (Job.Name j)); ("error", VErr err)]
            "Failed to download file" ;;
        activeFiles_Delete (Job.FileID j) ;;
        call (handleFileFailure (Job.TransferID j))
  | None =>
      call (handleFileCompletion (Job.TransferID j) (Job.FileID j))
  end.

(** [downloadWorker], run over the sequence of things its [select]
    receives. *)
Fixpoint downloadWorker (inbox : list Received) : M unit :=
  match inbox with
  | [] => ret tt
  | stopChan :: _ =>
      Log LInfo [] "Worker stopping due to shutdown request"
  | jobsClosed :: _ => ret tt
  | job j now script :: inbox' =>
      processJob j now script ;;
      downloadWorker inbox'
  end.

(** Every step of the attempt up to the final [os.Stat] goes well, and
    the downloaded file has [totalSize] bytes. *)
Definition downloadCompletes (out : Outside) (totalSize : Z) : Prop :=
  (exists url, GetDownloadURL out = Ok url)
  /\ MkdirAll out = None /\ StdoutPipe out = None /\ StderrPipe out = None
  /\ Start out = None /\ Wait out = None /\ ctxErr out = false
  /\ Stat out = Ok totalSize.

(** Vocabulary for the statements about attempts: what a call of
    [downloadFile] returns does not depend on the [World] it runs in. *)
Definition attemptFails (out : Outside) (state : DownloadState.t)
    (e : error) : Prop :=
  forall w, fst (downloadFile out state w) = Some e.

Definition attemptSucceeds (out : Outside) (state : DownloadState.t) : Prop :=
  forall w, fst (downloadFile out state w) = None.

(** The attempt fails with [e], and [e] is retried. *)
Definition attemptFailsTransiently (out : Outside) (state : DownloadState.t)
    (e : error) : Prop :=
  attemptFails out state e
  /\ isDownloadCancelled e = false /\ isTransientError (Some e) = true.

(** The attempt fails with [e], and [e] is neither a cancellation nor
    transient. *)
Definition attemptFailsPermanently (out : Outside) (state : DownloadState.t)
    (e : error) : Prop :=
  attemptFails out state e
  /\ isDownloadCancelled e = false /\ isTransientError (Some e) = false.

End Executor.

(** aria2c was started: the URL was resolved, the directory made, both
    pipes created and [cmd.Start] went well. *)
Definition aria2cStarted (out : Outside) : Prop :=
  (exists url, GetDownloadURL out = Ok url)
  /\ MkdirAll out = None /\ StdoutPipe out = None /\ StderrPipe out = None
  /\ Start out = None.

(** [w1] is [w] after [n] more attempts and the sleeps [ds]; the
    registry, the active files and the reports are as they were. *)
Definition advanced (w w1 : World) (n : nat) (ds : list Duration) : Prop :=
  coordinator w1 = coordinator w /\ activeFiles w1 = activeFiles w
  /\ reports w1 = reports w /\ attempts w1 = (attempts w + n)%nat
  /\ sleeps w1 = (sleeps w ++ ds)%list.

(** One worker completing files one after the other: a call of
    [downloadFile] for each, in order. *)
Fixpoint completeAll (cancelledText : string -> string -> string)
    (files : list (Outside * DownloadState.t * Z)) : M unit :=
  match files with
  | [] => ret tt
  | (out, state, _) :: files' =>
      downloadFile cancelledText out state ;;
      completeAll cancelledText files'
  end.

(** Each file in the list belongs to the transfer [id], its download
    goes well, and the size listed with it is the size [os.Stat]
    reports. *)
Definition completedFilesOf (id : Z)
    (files : list (Outside * DownloadState.t * Z)) : Prop :=
  Forall (fun f => downloadCompletes (fst (fst f)) (snd f)
                   /\ DownloadState.TransferID (snd (fst f)) = id
                   /\ 0 <= snd f) files.

Definition sumSizes (files : list (Outside * DownloadState.t * Z)) : Z :=
  fold_right (fun f acc => snd f + acc) 0 files.

(** The sleeps of [n] consecutive retries that start at [attempt]. *)
Definition backoff (attempt : Z) (n : nat) : list Duration :=
  map (fun i => Second * (attempt + Z.of_nat i)) (seq 0 n).

(* ===================================================================== *)
(** ** Several workers completing files of one registry                   *)
(* ===================================================================== *)

(** The statement [transferCtx.DownloadedSize += totalSize] of
    [downloadFile] takes no lock: it is a read of the field followed by a
    write of the sum, and the workers are goroutines over one registry.
    [Interleaving] runs that statement for several workers, one memory
    access at a time, in the order a schedule gives. *)
Module Interleaving.

Inductive pc : Type :=
| atLookup                (* before GetTransferContext and the read *)
| atWrite (sum : Z)       (* the sum is computed, the write is pending *)
| finished.

Record worker : Type := mkWorker {
  TransferID : Z;         (* state.TransferID *)
  totalSize : Z;          (* fileInfo.Size() of the completed file *)
  at_ : pc
}.

Definition start (transferID size : Z) : worker :=
  mkWorker transferID size atLookup.

(** One memory access of one worker. *)
Definition step1 (wk : worker) (reg : gmap Z TransferContext.t)
  : worker * gmap Z TransferContext.t :=
  match at_ wk with
  | atLookup =>
      match reg !! TransferID wk with
      | Some transferCtx =>
          (mkWorker (TransferID wk) (totalSize wk)
             (atWrite (wrap_int64 (TransferContext.DownloadedSize transferCtx
                                   + totalSize wk))),
           reg)
      | None => (mkWorker (TransferID wk) (totalSize wk) finished, reg)
      end
  | atWrite sum =>
      (mkWorker (TransferID wk) (totalSize wk) finished,
       writeDownloadedSize (TransferID wk) sum reg)
  | finished => (wk, reg)
  end.

(** Worker number [i] makes its next access. *)
Definition step (i : nat) (cfg : list worker * gmap Z TransferContext.t)
  : list worker * gmap Z TransferContext.t :=
  match fst cfg !! i with
  | Some wk =>
      let (wk', reg') := step1 wk (snd cfg) in
      (<[i := wk']> (fst cfg), reg')
  | None => cfg
  end.

(** A schedule: which worker moves next. *)
Definition run (schedule : list nat)
    (cfg : list worker * gmap Z TransferContext.t)
  : list worker * gmap Z TransferContext.t :=
  fold_left (fun c i => step i c) schedule cfg.

Definition allFinished (ws : list worker) : bool :=
  forallb (fun wk => match at_ wk with finished => true | _ => false end) ws.

(** The schedule in which every worker makes both of its accesses
    before the next worker starts. *)
Fixpoint oneAfterAnother (i n : nat) : list nat :=
  match n with
  | O => []
  | S n' => i :: i :: oneAfterAnother (S i) n'
  end.

End Interleaving.

(* ===================================================================== *)
(** ** Regular expressions, as far as the progress pattern needs them     *)
(* ===================================================================== *)

(** Go's [regexp] returns the leftmost match and, among the matches that
    start there, the one a backtracking engine finds first. [Regexp] is
    that backtracking engine for patterns that are sequences of literals,
    greedy [c+], lazy [c*?] over a character class [c], and alternations
    of literals, where a capture group wraps one such item. Lines are
    matched byte by byte; the literals of the progress pattern are ASCII
    and its classes are sets of ASCII bytes or complements of one, so the
    groups are the same as with Go's matching by code point. *)
Module Regexp.

Inductive node : Type :=
| Lit (s : string)
| Plus (group : option nat) (cls : ascii -> bool)
| LazyStar (cls : ascii -> bool)
| Alt (group : option nat) (alts : list string).

Definition setGroup (g : option nat) (text : string) (caps : list string)
  : list string :=
  match g with
  | Some i => <[i := text]> caps
  | None => caps
  end.

Section Loops.
Context {R : Type}.

(** [c*], longest first; [acc] is what the item has consumed. *)
Fixpoint greedyStar (cls : ascii -> bool)
    (k : string -> string -> option R) (acc s : string) : option R :=
  match s with
  | String c s' =>
      if cls c then
        match greedyStar cls k (acc ++ String c EmptyString) s' with
        | Some r => Some r
        | None => k acc s
        end
      else k acc s
  | EmptyString => k acc s
  end.

(** [c*?], shortest first. *)
Fixpoint lazyStar (cls : ascii -> bool) (k : string -> option R)
    (s : string) : option R :=
  match k s with
  | Some r => Some r
  | None =>
      match s with
      | String c s' => if cls c then lazyStar cls k s' else None
      | EmptyString => None
      end
  end.

(** Alternatives in the order they are written. *)
Fixpoint firstAlt (alts : list string) (k : string -> option R)
  : option R :=
  match alts with
  | [] => None
  | alt :: alts' =>
      match k alt with
      | Some r => Some r
      | None => firstAlt alts' k
      end
  end.
End Loops.

(** Match [prog] at the start of [s]: the groups and what is left. *)
Fixpoint matchHere (prog : list node) (caps : list string) (s : string)
  : option (list string * string) :=
  match prog with
  | [] => Some (caps, s)
  | Lit l :: prog' =>
      match stripPrefix l s with
      | Some s' => matchHere prog' caps s'
      | None => None
      end
  | Plus g cls :: prog' =>
      match s with
      | String c s' =>
          if cls c then
            greedyStar cls
              (fun text rest => matchHere prog' (setGroup g text caps) rest)
              (String c EmptyString) s'
          else None
      | EmptyString => None
      end
  | LazyStar cls :: prog' => lazyStar cls (matchHere prog' caps) s
  | Alt g alts :: prog' =>
      firstAlt alts
        (fun alt =>
           match stripPrefix alt s with
           | Some s' => matchHere prog' (setGroup g alt caps) s'
           | None => None
           end)
  end.

(** [FindStringSubmatch] for a pattern with [groups] capture groups:
    [None] is the nil slice; otherwise element 0 is the whole match
    and element [i] is group [i]. *)
Fixpoint FindStringSubmatch (prog : list node) (groups : nat) (s : string)
  : option (list string) :=
  match matchHere prog (replicate (S groups) EmptyString) s with
  | Some (caps, rest) =>
      Some (<[O := String.substring 0 (String.length s - String.length rest) s]>
              caps)
  | None =>
      match s with
      | String _ s' => FindStringSubmatch prog groups s'
      | EmptyString => None
      end
  end.

(** [\d], [.], [[\d.]] and [[^\]]]. *)
Definition digit (c : ascii) : bool :=
  (Ascii.leb "0" c && Ascii.leb c "9")%bool.
Definition dot (c : ascii) : bool := negb (Ascii.eqb c "010").
Definition digitOrDot (c : ascii) : bool := (digit c || Ascii.eqb c ".")%bool.
Definition notRBracket (c : ascii) : bool := negb (Ascii.eqb c "]").

End Regexp.

(** [strconv.ParseFloat(s, 64)] on the texts groups 1 and 2 of the
    progress pattern can hold, which are made of digits and dots
    ([progressRegex_groups]): the value and whether the text is
    well-formed (digits with at most one dot, at least one digit). On a
    malformed text Go returns 0 and an error. The value is the exact
    decimal; rounding to the nearest [float64], and the infinity Go
    returns for a number beyond the range of [float64], are not
    modelled. *)
Module strconv.

Record scan : Type := mkScan {
  mantissa : Z; fracDigits : nat; sawDot : bool; sawDigits : bool
}.

Fixpoint readFloat (s : string) (st : scan) : option scan :=
  match s with
  | EmptyString => if sawDigits st then Some st else None
  | String c s' =>
      if Regexp.digit c then
        readFloat s'
          (mkScan (mantissa st * 10 + (Z.of_nat (nat_of_ascii c) - 48))
                  (if sawDot st then S (fracDigits st) else fracDigits st)
                  (sawDot st) true)
      else if Ascii.eqb c "." then
        if sawDot st then None
        else readFloat s' (mkScan (mantissa st) (fracDigits st) true
                                  (sawDigits st))
      else None
  end.

Definition ParseFloat (s : string) : Q * bool :=
  match readFloat s (mkScan 0 0 false false) with
  | Some st =>
      (inject_Z (mantissa st) / inject_Z (10 ^ Z.of_nat (fracDigits st)),
       true)%Q
  | None => (0%Q, false)
  end.

End strconv.

(** The conversions [int64(x)] and [int(x)] of a float: toward zero. *)
Definition truncate (x : Q) : Z := Z.quot (Qnum x) (Z.pos (Qden x)).

(** [t.Sub(u)]: the difference, kept within the range of a [Duration]. *)
Definition Sub (t u : Time) : Duration :=
  Z.max (- 2 ^ 63) (Z.min (2 ^ 63 - 1) (t - u)).

(** [time.Since(t)] when the clock reads [now]. *)
Definition Since (now t : Time) : Duration := Sub now t.

(** [d.Seconds()]. *)
Definition Seconds (d : Duration) : Q := (inject_Z d / inject_Z Second)%Q.

(* ===================================================================== *)
(** ** The progress monitor                                               *)
(* ===================================================================== *)

(** [\[#\d+.*?(\d+)%.*?DL:([\d.]+)(KiB|MiB|GiB).*?ETA:([^\]]+)\]] *)
Definition progressRegex : list Regexp.node :=
  [ Regexp.Lit "[#"; Regexp.Plus None Regexp.digit;
    Regexp.LazyStar Regexp.dot;
    Regexp.Plus (Some 1%nat) Regexp.digit; Regexp.Lit "%";
    Regexp.LazyStar Regexp.dot;
    Regexp.Lit "DL:"; Regexp.Plus (Some 2%nat) Regexp.digitOrDot;
    Regexp.Alt (Some 3%nat) ["KiB"; "MiB"; "GiB"];
    Regexp.LazyStar Regexp.dot;
    Regexp.Lit "ETA:"; Regexp.Plus (Some 4%nat) Regexp.notRBracket;
    Regexp.Lit "]" ].

(** The conversion of the speed to MB/s. *)
Definition toMBps (speed : Q) (speedUnit : string) : Q :=
  if String.eqb speedUnit "KiB" then (speed / 1024)%Q
  else if String.eqb speedUnit "GiB" then (speed * 1024)%Q
  else speed.

(** The locals a matching line gives the loop body. *)
Record ProgressLine : Type := mkProgressLine {
  progress : Q;
  speed : Q;
  speedUnit : string;
  eta : string;
  speedMBps : Q
}.

Definition parseProgressLine (line : string) : option ProgressLine :=
  match Regexp.FindStringSubmatch progressRegex 4 line with
  | Some matches =>
      if (5 <=? length matches)%nat then
        let progress := fst (strconv.ParseFloat (nth 1 matches EmptyString)) in
        let speed := fst (strconv.ParseFloat (nth 2 matches EmptyString)) in
        let speedUnit := nth 3 matches EmptyString in
        let eta := nth 4 matches EmptyString in
        Some (mkProgressLine progress speed speedUnit eta
                             (toMBps speed speedUnit))
      else None
  | None => None
  end.

(** A line the scanner returns, with the readings of [time.Now()] the
    loop body takes while handling it. *)
Record Scanned : Type := mkScanned {
  line : string;
  nowProgress : Time;     (* state.LastProgress = time.Now() *)
  nowSince : Time;        (* inside time.Since(lastLogTime) *)
  nowLogged : Time        (* lastLogTime = time.Now() *)
}.

(** The job's state, the loop's locals and the log lines written. *)
Record Monitor : Type := mkMonitor {
  state : DownloadState.t;
  lastProgress : Q;
  lastLogTime : Time;
  written : list LogEntry
}.

(** The test that guards the progress log line. *)
Definition logDue (ProgressUpdateInterval : Duration) (mon : Monitor)
    (sc : Scanned) (p : ProgressLine) : bool :=
  (ProgressUpdateInterval <=? Since (nowSince sc) (lastLogTime mon))
  && negb (Qeq_bool (progress p) (lastProgress mon)).

(** The loop body of [monitorAria2cProgress] for one scanned line. *)
Definition monitorLine (ProgressUpdateInterval : Duration) (mon : Monitor)
    (sc : Scanned) : Monitor :=
  match parseProgressLine (line sc) with
  | Some p =>
      let st := state mon in
      let st' := DownloadState.mk (DownloadState.FileID st)
                   (DownloadState.Name st) (DownloadState.TransferID st)
                   (DownloadState.StartTime st)
                   (progress p) (truncate (progress p)) (nowProgress sc) in
      if logDue ProgressUpdateInterval mon sc p then
        mkMonitor st' (progress p) (nowLogged sc)
          (written mon ++
             [mkLog LInfo
                [("file_name", VStr (DownloadState.Name st));
                 ("progress_percent", VFloat (progress p));
                 ("speed_mbps", VFloat (speedMBps p));
                 ("eta", VStr (eta p))]
                "Download progress"])
      else mkMonitor st' (lastProgress mon) (lastLogTime mon) (written mon)
  | None =>
      if Contains (line sc) "Exception" || Contains (line sc) "error"
         || Contains (line sc) "ERROR" || Contains (line sc) "failed"
      then
        mkMonitor (state mon) (lastProgress mon) (lastLogTime mon)
          (written mon ++
             [mkLog LError
                [("file_name", VStr (DownloadState.Name (state mon)));
                 ("aria2c_output", VStr (line sc))]
                "aria2c error output"])
      else mon
  end.

(** [monitorAria2cProgress] from its start at [now] over the lines it
    scans before [done] or the context ends it. *)
Definition monitorAria2cProgress (ProgressUpdateInterval : Duration)
    (st : DownloadState.t) (now : Time) (lines : list Scanned) : Monitor :=
  fold_left (monitorLine ProgressUpdateInterval) lines
            (mkMonitor st 0%Q now []).

(* ===================================================================== *)
(** ** The dashboard                                                      *)
(* ===================================================================== *)

(** [formatDuration]; [/] and [%] of Go round toward zero. *)
Definition formatDuration (seconds : Z) : string :=
  if seconds <? 0 then "unknown"
  else
    let h := Z.quot seconds 3600 in
    let m := Z.quot (Z.rem seconds 3600) 60 in
    let s := Z.rem seconds 60 in
    if h >? 0 then itoa h ++ "h" ++ itoa m ++ "m"
    else if m >? 0 then itoa m ++ "m" ++ itoa s ++ "s"
    else itoa s ++ "s".

Module DownloadInfo.
Record t : Type := mk {
  Name : string;
  ProgressPercent : Q;
  DownloadedMB : Q;
  TotalMB : Q;
  SpeedMBps : Q;
  ETA : string
}.
End DownloadInfo.

Definition IsZero (t : Time) : bool := t =? 0.

Definition Qpositive (x : Q) : bool := negb (Qle_bool x 0).

(** The condition under which the visitor appends an entry. *)
Definition shown (ctx : TransferContext.t) : bool :=
  TransferLifecycle_eqb (TransferContext.State ctx) TransferLifecycleDownloading
  && (TransferContext.TotalSize ctx >? 0).

(** The entry the visitor builds inside its [if]. *)
Definition downloadInfo (now : Time) (ctx : TransferContext.t)
  : DownloadInfo.t :=
  let downloadedMB :=
    (inject_Z (TransferContext.DownloadedSize ctx) / 1024 / 1024)%Q in
  let totalMB := (inject_Z (TransferContext.TotalSize ctx) / 1024 / 1024)%Q in
  let progressPercent :=
    (inject_Z (TransferContext.DownloadedSize ctx)
     / inject_Z (TransferContext.TotalSize ctx) * 100)%Q in
  let '(speedMBps, eta) :=
    if negb (IsZero (TransferContext.StartTime ctx))
       && (TransferContext.DownloadedSize ctx >? 0)
    then
      let elapsed := Seconds (Since now (TransferContext.StartTime ctx)) in
      if Qpositive elapsed then
        let speedMBps := (downloadedMB / elapsed)%Q in
        let remainingMB := (totalMB - downloadedMB)%Q in
        if Qpositive speedMBps then
          let etaSeconds := truncate (remainingMB / speedMBps)%Q in
          (speedMBps, formatDuration etaSeconds)
        else (speedMBps, "calculating...")
      else (0%Q, "calculating...")
    else (0%Q, "calculating...") in
  DownloadInfo.mk (TransferContext.Name ctx) progressPercent downloadedMB
                  totalMB speedMBps eta.

(** The function literal [handleDashboardAPI] passes to [GetAllTransfers],
    called on [ctx] when the clock reads [now]: it takes the read lock,
    appends to [downloads] when the transfer is shown, and releases the
    lock on return. *)
Definition visitor (now : Time) (ctx : TransferContext.t)
    (downloads : list DownloadInfo.t)
  : TransferContext.t * list DownloadInfo.t :=
  let ctx := TransferContext.set_Mu (RWMutex.RLock (TransferContext.Mu ctx)) ctx in
  let downloads :=
    if shown ctx then (downloads ++ [downloadInfo now ctx])%list
    else downloads in
  (TransferContext.set_Mu (RWMutex.RUnlock (TransferContext.Mu ctx)) ctx,
   downloads).

(** Modelled from the spec: [GetAllTransfers(visit)] calls [visit] on
    every registered transfer context, one after the other; its body is
    not among the sources. [transfers] lists the contexts in the order of
    the visits, each with the clock reading during its visit. *)
Fixpoint GetAllTransfers {A : Type}
    (visit : Time -> TransferContext.t -> A -> TransferContext.t * A)
    (transfers : list (TransferContext.t * Time)) (acc : A)
  : list TransferContext.t * A :=
  match transfers with
  | [] => ([], acc)
  | (ctx, now) :: rest =>
      let (ctx', acc') := visit now ctx acc in
      let (rest', acc'') := GetAllTransfers visit rest acc' in
      (ctx' :: rest', acc'')
  end.

(** [handleDashboardAPI]: the contexts after the call and the list that
    is encoded into the response. *)
Definition handleDashboardAPI (transfers : list (TransferContext.t * Time))
  : list TransferContext.t * list DownloadInfo.t :=
  GetAllTransfers visitor transfers [].

(* ===================================================================== *)
(** ** Vocabulary of the statements about the monitor                     *)
(* ===================================================================== *)

(** The capture group an item of a pattern writes, if any. *)
Definition groupOf (n : Regexp.node) : option nat :=
  match n with
  | Regexp.Plus g _ => g
  | Regexp.Alt g _ => g
  | _ => None
  end.

(** Every byte of [s] is in the class [cls]. *)
Fixpoint allIn (cls : ascii -> bool) (s : string) : bool :=
  match s with
  | EmptyString => true
  | String c s' => cls c && allIn cls s'
  end.

(** The monitor after the first [i] of the scanned lines. *)
Definition monitorAfter (ProgressUpdateInterval : Duration)
    (st : DownloadState.t) (now : Time) (lines : list Scanned) (i : nat)
  : Monitor :=
  monitorAria2cProgress ProgressUpdateInterval st now (take i lines).

(** Handling line [i] wrote exactly one log line, and it is the progress
    line (the only one the monitor writes at info level). *)
Definition progressLogged (ProgressUpdateInterval : Duration)
    (st : DownloadState.t) (now : Time) (lines : list Scanned) (i : nat)
  : bool :=
  match drop (length (written (monitorAfter ProgressUpdateInterval st now
                                 lines i)))
             (written (monitorAfter ProgressUpdateInterval st now lines (S i)))
  with
  | [e] => match level e with LInfo => true | _ => false end
  | _ => false
  end.

(** The last progress line logged for the lines before [i], read off
    the log: the clock reading taken right after it was written and the
    percentage it reports. Before the first progress line these are the
    monitor's start and 0. *)
Fixpoint lastLogged (ProgressUpdateInterval : Duration)
    (st : DownloadState.t) (now : Time) (lines : list Scanned) (i : nat)
  : Time * Q :=
  match i with
  | O => (now, 0%Q)
  | S j =>
      if progressLogged ProgressUpdateInterval st now lines j then
        match lines !! j with
        | Some sc =>
            (nowLogged sc,
             match parseProgressLine (line sc) with
             | Some p => progress p
             | None => 0%Q
             end)
        | None => (now, 0%Q)
        end
      else lastLogged ProgressUpdateInterval st now lines j
  end.

(* ===================================================================== *)
(** ** Sample inputs                                                      *)
(* ===================================================================== *)

Module Sample.

Definition cancelledText (filename reason : string) : string :=
  filename ++ ": " ++ reason.

Definition world : World := mkWorld ∅ ∅ [] [] 0 [].

Definition episode : Job.t := Job.mk 7 "episode.mkv" 1.

Definition st : DownloadState.t := newDownloadState episode 1000.

(** aria2c runs and exits with status 0; the file has [size] bytes. *)
Definition completes (size : Z) : Outside :=
  mkOutside (Ok "https://example.org/f") None false false None
            None None None None false (Ok size).

(** The Put.io client answers with a 503. *)
Definition unavailable : Outside :=
  mkOutside (Err (errorString "unexpected status 503 Service Unavailable"))
            None false false None None None None None false (Ok 0).

(** aria2c exits with a non-zero status. *)
Definition aria2cFails : Outside :=
  mkOutside (Ok "https://example.org/f") None false false None
            None None None (Some (errorString "exit status 1")) false
            (Ok 0).

(** The shutdown channel is closed while aria2c runs. *)
Definition shutdown : Outside :=
  mkOutside (Ok "https://example.org/f") None false false None
            None None None (Some (errorString "signal: killed")) true
            (Ok 0).

(** Attempts 1 to [n] meet a 503, every later attempt [after]. *)
Definition unavailableThen (n : Z) (after : Outside) (attempt : Z)
  : Outside :=
  if attempt <=? n then unavailable else after.

(** A transfer of two files, of 5 and 7 bytes, none completed yet. *)
Definition transfer : TransferContext.t :=
  TransferContext.mk 1 "Season 1" TransferLifecycleDownloading 12 0 500
                     (RWMutex.mk 0).

Definition registry : gmap Z TransferContext.t := {[ 1 := transfer ]}.

Definition progressLine : string :=
  "[#1 SIZE:1.2GiB/10.5GiB(11%) CN:16 DL:45.2MiB ETA:3m12s]".

Definition slowLine : string :=
  "[#1 SIZE:1.2GiB/10.5GiB(11%) CN:16 DL:900KiB ETA:3h2m]".

Definition fastLine : string :=
  "[#1 SIZE:1.2GiB/10.5GiB(12%) CN:16 DL:1.5GiB ETA:6s]".

(** Two progress lines, 6 and 8 seconds after the monitor's start at 0. *)
Definition scans : list Scanned :=
  [ mkScanned progressLine 6000000000 6000000000 6000000000;
    mkScanned fastLine 8000000000 8000000000 8000000000 ].

(** A transfer of 200 MiB, half of it downloaded, started at second 1. *)
Definition halfDone : TransferContext.t :=
  TransferContext.mk 2 "Season 2" TransferLifecycleDownloading
                     209715200 104857600 1000000000 (RWMutex.mk 0).

(** A registered transfer whose total size is not known yet. *)
Definition sizeUnknown : TransferContext.t :=
  TransferContext.mk 3 "Season 3" TransferLifecycleDownloading
                     0 0 1000000000 (RWMutex.mk 0).

(** A completed transfer. *)
Definition completed : TransferContext.t :=
  TransferContext.mk 4 "Season 4" TransferLifecycleCompleted
                     1048576 1048576 1000000000 (RWMutex.mk 0).

Definition e503 : error :=
  Errorf_w "failed to get download URL: "
           (errorString "unexpected status 503 Service Unavailable").

End Sample.

(* ===================================================================== *)
(** * Properties                                                          *)
(* ===================================================================== *)

(* ===================================================================== *)
(** ** Facts about strings                                                *)
(* ===================================================================== *)

Section StringFacts.

Lemma append_cons (c : ascii) (a b : string) :
  String c a ++ b = String c (a ++ b).
Proof. reflexivity. Qed.

Lemma append_nil (b : string) : EmptyString ++ b = b.
Proof. reflexivity. Qed.

Lemma stripPrefix_app (p r : string) : stripPrefix p (p ++ r) = Some r.
Proof.
  induction p as [|a p IH]; [reflexivity|].
  rewrite append_cons. simpl. rewrite Ascii.eqb_refl. exact IH.
Qed.

Lemma stripPrefix_Some (p s r : string) :
  stripPrefix p s = Some r -> s = p ++ r.
Proof.
  revert s. induction p as [|a p IH]; intros s H; simpl in *.
  - injection H as ->. reflexivity.
  - destruct s as [|b s]; [discriminate|].
    destruct (Ascii.eqb_spec a b) as [->|]; [|discriminate].
    rewrite append_cons. f_equal. apply IH, H.
Qed.

(** [Contains] decides the occurrence of a substring. *)
Lemma Contains_spec (s sub : string) :
  Contains s sub = true <-> exists a b : string, s = a ++ sub ++ b.
Proof.
  split.
  - induction s as [|c s IH]; simpl.
    + destruct (stripPrefix sub EmptyString) as [r|] eqn:E; [|discriminate].
      intros _. exists EmptyString, r. rewrite append_nil. apply stripPrefix_Some, E.
    + destruct (stripPrefix sub (String c s)) as [r|] eqn:E.
      * intros _. exists EmptyString, r. rewrite append_nil. apply stripPrefix_Some, E.
      * intros H. destruct (IH H) as (a & b & ->).
        exists (String c a), b. reflexivity.
  - intros (a & b & ->). induction a as [|c a IH].
    + rewrite append_nil.
      destruct (sub ++ b) eqn:E; simpl; rewrite <- E, stripPrefix_app;
        reflexivity.
    + rewrite append_cons. simpl.
      destruct (stripPrefix sub (String c (a ++ sub ++ b))); [reflexivity|].
      exact IH.
Qed.

End StringFacts.

(* ===================================================================== *)
(** ** The transient-error classifier                                     *)
(* ===================================================================== *)

Section Classifier.

Lemma isTransientError_nil : isTransientError None = false.
Proof. reflexivity. Qed.

Lemma isTransientError_cancelled (e : error) :
  isDownloadCancelled e = true -> isTransientError (Some e) = false.
Proof. intros H. unfold isTransientError. rewrite H. reflexivity. Qed.

Lemma mentionsRetryableStatus_bool (e : error) :
  Contains (Error e) "429" || Contains (Error e) "503"
  || Contains (Error e) "504" || Contains (Error e) "502" = true
  <-> mentionsRetryableStatus e.
Proof.
  unfold mentionsRetryableStatus.
  rewrite !orb_true_iff, !Contains_spec. split.
  - intros [[[H|H]|H]|H]; destruct H as (a & b & H);
      [exists "429"|exists "503"|exists "504"|exists "502"];
      exists a, b; (split; [simpl; tauto|exact H]).
  - intros (code & a & b & Hin & H). simpl in Hin.
    destruct Hin as [<-|[<-|[<-|[<-|[]]]]]; eauto 7.
Qed.

Lemma isConnectionFailureText_bool (e : error) :
  String.eqb (Error e) "connection reset"
  || String.eqb (Error e) "connection refused"
  || String.eqb (Error e) "i/o timeout" = true
  <-> isConnectionFailureText e.
Proof.
  unfold isConnectionFailureText.
  rewrite !orb_true_iff, !String.eqb_eq. tauto.
Qed.

(** C3. For every error [e]: a cancellation error (a [DownloadError] of
    type [DownloadCancelled]) is never transient; any other error is
    transient exactly when its text is "connection reset", "connection
    refused" or "i/o timeout", or when 429, 502, 503 or 504 occurs in its
    text; every remaining error is classified as not transient. *)
Theorem isTransientError_classification (e : error) :
  (isDownloadCancelled e = true -> isTransientError (Some e) = false)
  /\ (isDownloadCancelled e = false ->
      (isTransientError (Some e) = true
       <-> isConnectionFailureText e \/ mentionsRetryableStatus e))
  /\ (isDownloadCancelled e = false ->
      ~ isConnectionFailureText e -> ~ mentionsRetryableStatus e ->
      isTransientError (Some e) = false).
Proof.
  assert (Hiff : isDownloadCancelled e = false ->
      (isTransientError (Some e) = true
       <-> isConnectionFailureText e \/ mentionsRetryableStatus e)).
  { intros Hc. unfold isTransientError. rewrite Hc.
    rewrite <- isConnectionFailureText_bool, <- mentionsRetryableStatus_bool.
    destruct (_ || _ || String.eqb _ _); [tauto|].
    destruct (_ || _ || _ || Contains _ _); intuition discriminate. }
  split; [apply isTransientError_cancelled|]. split; [exact Hiff|].
  intros Hc H1 H2.
  apply not_true_is_false. intros E. apply Hiff in E; tauto.
Qed.

End Classifier.

(** A retryable status in the text makes an error transient. *)
Lemma isTransientError_witness :
  isTransientError (Some (errorString "HTTP 503 Service Unavailable")) = true.
Proof.
  pose (e := errorString "HTTP 503 Service Unavailable").
  destruct (isTransientError_classification e) as (_ & Hiff & _).
  apply Hiff; [reflexivity|].
  right. exists "503", "HTTP ", " Service Unavailable".
  split; [simpl; tauto|reflexivity].
Defined.

(** An error that wraps a connection reset is not one of the three
    texts: the comparison is with the whole of [Error()]. *)
Example wrapped_connection_reset_is_not_transient :
  isTransientError
    (Some (Errorf_w "aria2c failed: " (errorString "connection reset")))
  = false.
Proof. reflexivity. Qed.

(* ===================================================================== *)
(** ** The retry loop                                                     *)
(* ===================================================================== *)

Section RetryFacts.

Variable cancelledText : string -> string -> string.
Variable script : Z -> Outside.
Variable st : DownloadState.t.


Lemma advanced_refl (w : World) : advanced w w 0 [].
Proof.
  unfold advanced. rewrite Nat.add_0_r, app_nil_r. tauto.
Qed.

Lemma advanced_trans (w w1 w2 : World) n m ds es :
  advanced w w1 n ds -> advanced w1 w2 m es ->
  advanced w w2 (n + m) (ds ++ es).
Proof.
  unfold advanced. intros (a1 & a2 & a3 & a4 & a5) (b1 & b2 & b3 & b4 & b5).
  rewrite b1, b2, b3, b4, b5, a1, a2, a3, a4, a5, Nat.add_assoc, app_assoc.
  tauto.
Qed.

(** A failing attempt changes nothing but the log and the attempt count. *)
Lemma downloadFile_failure_frame (out : Outside) (w : World) (e : error) :
  fst (downloadFile cancelledText out st w) = Some e ->
  advanced w (snd (downloadFile cancelledText out st w)) 1 [].
Proof.
  unfold advanced. rewrite app_nil_r, Nat.add_1_r.
  destruct out as [url mk te cf rm so se sa wa cx sz].
  unfold downloadFile, bind, countAttempt, Log, ret,
    GetTransferContext, storeDownloadedSize, logUpdated, logCompleted; simpl.
  repeat (simpl;
          match goal with
          | |- context [match ?x with _ => _ end] => is_var x; destruct x
          | |- context [if ?x then _ else _] => destruct x
          | |- context [match ?m !! ?k with _ => _ end] => destruct (m !! k)
          end);
    simpl; solve [tauto | discriminate].
Qed.

Lemma backoff_S (a : Z) (n : nat) :
  backoff a (S n) = Second * a :: backoff (a + 1) n.
Proof.
  unfold backoff. simpl seq. rewrite <- seq_shift, map_cons, map_map.
  f_equal; [f_equal; lia|].
  apply map_ext. intros i. f_equal. lia.
Qed.

(** One iteration that meets a transient error: a warning, a sleep of
    [attempt] seconds, and the loop goes on with the next attempt. *)
Lemma retryLoop_transient_step (n : nat) (a : Z) (last : option error)
    (w : World) (e : error) :
  attemptFailsTransiently cancelledText (script a) st e ->
  exists w1,
    retryLoop cancelledText script st (S n) a last w
    = retryLoop cancelledText script st n (a + 1) (Some e) w1
    /\ advanced w w1 1 [Second * a].
Proof.
  intros (Hf & Hc & Ht). specialize (Hf w).
  pose proof (downloadFile_failure_frame _ _ _ Hf) as Hfr.
  simpl retryLoop. unfold bind at 1.
  destruct (downloadFile cancelledText (script a) st w) as [r w0].
  simpl in Hf, Hfr.
  subst r. rewrite Hc, Ht. simpl negb. cbv iota.
  unfold bind, Log, Sleep. eexists. split; [reflexivity|].
  destruct Hfr as (H1 & H2 & H3 & H4 & H5).
  unfold advanced. simpl. rewrite H1, H2, H3, H4, H5, app_nil_r. tauto.
Qed.

(** [j] iterations in a row that meet transient errors. *)
Lemma retryLoop_transient_run (errs : Z -> error) (j : nat) :
  forall (n : nat) (a : Z) (last : option error) (w : World),
  (forall i, a <= i < a + Z.of_nat j ->
             attemptFailsTransiently cancelledText (script i) st (errs i)) ->
  exists w1,
    retryLoop cancelledText script st (j + n) a last w
    = retryLoop cancelledText script st n (a + Z.of_nat j)
        (match j with O => last | S _ => Some (errs (a + Z.of_nat j - 1)) end)
        w1
    /\ advanced w w1 j (backoff a j).
Proof.
  induction j as [|j IH]; intros n a last w H.
  - exists w. rewrite Z.add_0_r. split; [reflexivity|apply advanced_refl].
  - destruct (retryLoop_transient_step (j + n) a last w (errs a))
      as (w0 & E0 & A0); [apply H; lia|].
    destruct (IH n (a + 1) (Some (errs a)) w0) as (w1 & E1 & A1).
    { intros i Hi. apply H. lia. }
    exists w1. split.
    + change (S j + n)%nat with (S (j + n)). rewrite E0, E1.
      replace (a + 1 + Z.of_nat j) with (a + Z.of_nat (S j)) by lia.
      destruct j; [|reflexivity].
      simpl. do 3 f_equal. lia.
    + rewrite backoff_S. apply (advanced_trans _ _ _ _ _ _ _ A0 A1).
Qed.

(** How an iteration ends the loop. *)
Lemma retryLoop_success (n : nat) (a : Z) (last : option error) (w : World) :
  attemptSucceeds cancelledText (script a) st ->
  fst (retryLoop cancelledText script st (S n) a last w) = None.
Proof.
  intros Hs. specialize (Hs w). simpl retryLoop. unfold bind.
  destruct (downloadFile cancelledText (script a) st w) as [r w0].
  simpl in Hs. subst r.
  reflexivity.
Qed.

Lemma retryLoop_cancelled (n : nat) (a : Z) (last : option error)
    (w : World) (e : error) :
  attemptFails cancelledText (script a) st e ->
  isDownloadCancelled e = true ->
  exists w1,
    retryLoop cancelledText script st (S n) a last w = (Some e, w1)
    /\ advanced w w1 1 [].
Proof.
  intros Hf Hc. specialize (Hf w).
  pose proof (downloadFile_failure_frame _ _ _ Hf) as Hfr.
  simpl retryLoop. unfold bind.
  destruct (downloadFile cancelledText (script a) st w) as [r w0].
  simpl in Hf, Hfr.
  subst r. rewrite Hc. exists w0. split; [reflexivity|exact Hfr].
Qed.

Lemma retryLoop_permanent (n : nat) (a : Z) (last : option error)
    (w : World) (e : error) :
  attemptFailsPermanently cancelledText (script a) st e ->
  exists w1,
    retryLoop cancelledText script st (S n) a last w
    = (Some (Errorf_w ("permanent error on attempt " ++ itoa a ++ ": ") e), w1)
    /\ advanced w w1 1 [].
Proof.
  intros (Hf & Hc & Ht). specialize (Hf w).
  pose proof (downloadFile_failure_frame _ _ _ Hf) as Hfr.
  simpl retryLoop. unfold bind.
  destruct (downloadFile cancelledText (script a) st w) as [r w0].
  simpl in Hf, Hfr.
  subst r. rewrite Hc, Ht. exists w0. split; [reflexivity|exact Hfr].
Qed.

(** The loop reaches attempt [a] when the attempts before it met
    transient errors; it has slept after each of those. *)
Lemma downloadWithRetry_reaches (errs : Z -> error) (a : Z) (w : World) :
  1 <= a <= 3 ->
  (forall i, 1 <= i < a ->
             attemptFailsTransiently cancelledText (script i) st (errs i)) ->
  exists w1 last,
    downloadWithRetry cancelledText script st w
    = retryLoop cancelledText script st (S (Z.to_nat (3 - a))) a last w1
    /\ advanced w w1 (Z.to_nat (a - 1)) (backoff 1 (Z.to_nat (a - 1))).
Proof.
  intros Ha H.
  destruct (retryLoop_transient_run errs (Z.to_nat (a - 1))
              (S (Z.to_nat (3 - a))) 1 None w) as (w1 & E & A).
  { intros i Hi. apply H. lia. }
  exists w1. eexists. split; [|exact A].
  unfold downloadWithRetry, maxRetries.
  replace (Z.to_nat 3) with (Z.to_nat (a - 1) + S (Z.to_nat (3 - a)))%nat
    by lia.
  rewrite E. f_equal. lia.
Qed.

(** C1, as the code has it. With at most two consecutive transient
    errors, a following successful attempt makes [downloadWithRetry]
    return nil. The third consecutive transient error is the last
    attempt: the loop sleeps once more and returns "failed after 3
    attempts, last error: ..." wrapping that third error; a fourth
    attempt is never made. *)
Theorem downloadWithRetry_transient_errors (errs : Z -> error) (n : nat)
    (w : World) :
  (forall i, 1 <= i <= Z.of_nat n ->
             attemptFailsTransiently cancelledText (script i) st (errs i)) ->
  ((n <= 2)%nat ->
   attemptSucceeds cancelledText (script (Z.of_nat n + 1)) st ->
   fst (downloadWithRetry cancelledText script st w) = None)
  /\ (n = 3%nat ->
      exists w1,
        downloadWithRetry cancelledText script st w
        = (Some (Errorf_w "failed after 3 attempts, last error: " (errs 3)),
           w1)
        /\ Unwrap (Errorf_w "failed after 3 attempts, last error: " (errs 3))
           = Some (errs 3)
        /\ attempts w1 = (attempts w + 3)%nat
        /\ sleeps w1 = (sleeps w ++ [Second * 1; Second * 2; Second * 3])%list).
Proof.
  intros H. split.
  - intros Hn Hs.
    destruct (downloadWithRetry_reaches errs (Z.of_nat n + 1) w)
      as (w1 & last & E & _); [lia| |].
    { intros i Hi. apply H. lia. }
    rewrite E. apply retryLoop_success, Hs.
  - intros ->.
    destruct (retryLoop_transient_run errs 3 0 1 None w) as (w1 & E & A).
    { intros i Hi. apply H. lia. }
    exists w1. unfold downloadWithRetry, maxRetries.
    change (Z.to_nat 3) with (3 + 0)%nat. rewrite E.
    destruct A as (_ & _ & _ & A4 & A5).
    repeat split; [exact A4|exact A5].
Qed.

(** C5. When attempt [a] (1 to 3) is reached and fails with an error that
    is neither a cancellation nor transient, [downloadWithRetry] returns
    "permanent error on attempt a: ..." wrapping that error. Attempt [a]
    is the last call of [downloadFile], and the only sleeps are those
    that followed the [a - 1] earlier attempts. *)
Theorem downloadWithRetry_permanent_error (errs : Z -> error) (a : Z)
    (e : error) (w : World) :
  1 <= a <= 3 ->
  (forall i, 1 <= i < a ->
             attemptFailsTransiently cancelledText (script i) st (errs i)) ->
  attemptFailsPermanently cancelledText (script a) st e ->
  exists w1,
    downloadWithRetry cancelledText script st w
    = (Some (Errorf_w ("permanent error on attempt " ++ itoa a ++ ": ") e),
       w1)
    /\ Unwrap (Errorf_w ("permanent error on attempt " ++ itoa a ++ ": ") e)
       = Some e
    /\ attempts w1 = (attempts w + Z.to_nat a)%nat
    /\ sleeps w1 = (sleeps w ++ backoff 1 (Z.to_nat (a - 1)))%list.
Proof.
  intros Ha H Hp.
  destruct (downloadWithRetry_reaches errs a w Ha H) as (w0 & last & E & A).
  destruct (retryLoop_permanent (Z.to_nat (3 - a)) a last w0 e Hp)
    as (w1 & E1 & A1).
  exists w1. rewrite E, E1.
  destruct (advanced_trans _ _ _ _ _ _ _ A A1) as (_ & _ & _ & A4 & A5).
  rewrite app_nil_r in A5.
  repeat split; [rewrite A4; lia|exact A5].
Qed.

(** The cancellation counterpart, used for the worker below. *)
Lemma downloadWithRetry_cancelled (errs : Z -> error) (a : Z)
    (e : error) (w : World) :
  1 <= a <= 3 ->
  (forall i, 1 <= i < a ->
             attemptFailsTransiently cancelledText (script i) st (errs i)) ->
  attemptFails cancelledText (script a) st e ->
  isDownloadCancelled e = true ->
  exists w1,
    downloadWithRetry cancelledText script st w = (Some e, w1)
    /\ advanced w w1 (Z.to_nat a) (backoff 1 (Z.to_nat (a - 1))).
Proof.
  intros Ha H Hf Hc.
  destruct (downloadWithRetry_reaches errs a w Ha H) as (w0 & last & E & A).
  destruct (retryLoop_cancelled (Z.to_nat (3 - a)) a last w0 e Hf Hc)
    as (w1 & E1 & A1).
  exists w1. rewrite E, E1. split; [reflexivity|].
  pose proof (advanced_trans _ _ _ _ _ _ _ A A1) as A2.
  rewrite app_nil_r in A2.
  replace (Z.to_nat a) with (Z.to_nat (a - 1) + 1)%nat by lia. exact A2.
Qed.

End RetryFacts.

(** C4. When attempt [a] (1 to 3) is reached and [downloadFile] returns a
    [DownloadCancelled] error [e], [downloadWithRetry] returns [e]
    itself: attempt [a] is the last call of [downloadFile] and no sleep
    follows it. The worker then removes the file id from the active
    files and makes no call to the coordinator. *)
Theorem cancellation_short_circuit (cancelledText : string -> string -> string)
    (script : Z -> Outside) (j : Job.t) (now : Time) (errs : Z -> error)
    (a : Z) (e : error) (w : World) :
  1 <= a <= 3 ->
  (forall i, 1 <= i < a ->
             attemptFailsTransiently cancelledText (script i)
               (newDownloadState j now) (errs i)) ->
  attemptFails cancelledText (script a) (newDownloadState j now) e ->
  isDownloadCancelled e = true ->
  (exists w1,
      downloadWithRetry cancelledText script (newDownloadState j now) w
      = (Some e, w1)
      /\ attempts w1 = (attempts w + Z.to_nat a)%nat
      /\ sleeps w1 = (sleeps w ++ backoff 1 (Z.to_nat (a - 1)))%list)
  /\ (let w2 := snd (processJob cancelledText j now script w) in
      activeFiles w2 = activeFiles w ∖ {[Job.FileID j]}
      /\ reports w2 = reports w
      /\ attempts w2 = (attempts w + Z.to_nat a)%nat
      /\ sleeps w2 = (sleeps w ++ backoff 1 (Z.to_nat (a - 1)))%list).
Proof.
  intros Ha H Hf Hc.
  destruct (downloadWithRetry_cancelled cancelledText script
              (newDownloadState j now) errs a e w Ha H Hf Hc)
    as (w1 & E & A1 & A2 & A3 & A4 & A5).
  split; [exists w1; auto|].
  unfold processJob, bind. rewrite E, Hc. simpl.
  rewrite A2, A3, A4, A5. auto.
Qed.

(** A 503 from the Put.io client on attempt 1, shutdown during attempt 2. *)
Lemma cancellation_short_circuit_witness :
  let script := Sample.unavailableThen 1 Sample.shutdown in
  let w2 := snd (processJob Sample.cancelledText Sample.episode 1000 script
                            Sample.world) in
  activeFiles w2 = activeFiles Sample.world ∖ {[7]}
  /\ reports w2 = []
  /\ attempts w2 = 2%nat
  /\ sleeps w2 = [Second * 1].
Proof.
  refine (proj2 (cancellation_short_circuit Sample.cancelledText
                   (Sample.unavailableThen 1 Sample.shutdown)
                   Sample.episode 1000 (fun _ => Sample.e503) 2
                   (NewDownloadCancelledError Sample.cancelledText
                      "episode.mkv" "download stopped")
                   Sample.world _ _ _ _)).
  - lia.
  - intros i Hi. assert (i = 1) as -> by lia.
    split; [intros w; reflexivity|split; reflexivity].
  - intros w. reflexivity.
  - reflexivity.
Defined.

(** C1 as stated fails at three transient errors: attempts 1, 2 and 3
    meet a 503 and attempt 4 would succeed, yet [downloadWithRetry]
    returns the exhausted-retry failure after the third. *)
Lemma three_transient_errors_then_success :
  (forall i, 1 <= i <= 3 ->
     attemptFailsTransiently Sample.cancelledText
       (Sample.unavailableThen 3 (Sample.completes 1024) i) Sample.st
       Sample.e503)
  /\ attemptSucceeds Sample.cancelledText
       (Sample.unavailableThen 3 (Sample.completes 1024) 4) Sample.st
  /\ fst (downloadWithRetry Sample.cancelledText
            (Sample.unavailableThen 3 (Sample.completes 1024)) Sample.st
            Sample.world)
     = Some (Errorf_w "failed after 3 attempts, last error: " Sample.e503)
  /\ fst (downloadWithRetry Sample.cancelledText
            (Sample.unavailableThen 3 (Sample.completes 1024)) Sample.st
            Sample.world) <> None.
Proof.
  split; [|split; [|split]].
  - intros i Hi.
    assert (i = 1 \/ i = 2 \/ i = 3) as [->|[->| ->]] by lia;
      (split; [intros w; reflexivity|split; reflexivity]).
  - intros w. unfold Sample.unavailableThen. simpl.
    unfold downloadFile, bind, GetTransferContext. simpl.
    destruct (coordinator w !! 1); reflexivity.
  - reflexivity.
  - discriminate.
Qed.

(** Two transient errors, then a download of 1024 bytes. *)
Lemma downloadWithRetry_transient_errors_witness :
  fst (downloadWithRetry Sample.cancelledText
         (Sample.unavailableThen 2 (Sample.completes 1024)) Sample.st
         Sample.world) = None.
Proof.
  refine (proj1 (downloadWithRetry_transient_errors Sample.cancelledText
                   (Sample.unavailableThen 2 (Sample.completes 1024))
                   Sample.st (fun _ => Sample.e503) 2 Sample.world _) _ _).
  - intros i Hi. assert (i = 1 \/ i = 2) as [->| ->] by lia;
      (split; [intros w; reflexivity|split; reflexivity]).
  - lia.
  - intros w. unfold Sample.unavailableThen. simpl.
    unfold downloadFile, bind, GetTransferContext. simpl.
    destruct (coordinator w !! 1); reflexivity.
Defined.

(** A 503 on attempt 1, then aria2c exits with status 1 on attempt 2. *)
Lemma downloadWithRetry_permanent_error_witness :
  exists w1,
    downloadWithRetry Sample.cancelledText
      (Sample.unavailableThen 1 Sample.aria2cFails) Sample.st Sample.world
    = (Some (Errorf_w "permanent error on attempt 2: "
               (Errorf_w "aria2c failed: " (errorString "exit status 1"))),
       w1)
    /\ Unwrap (Errorf_w "permanent error on attempt 2: "
                 (Errorf_w "aria2c failed: " (errorString "exit status 1")))
       = Some (Errorf_w "aria2c failed: " (errorString "exit status 1"))
    /\ attempts w1 = 2%nat
    /\ sleeps w1 = [Second * 1].
Proof.
  refine (downloadWithRetry_permanent_error Sample.cancelledText
            (Sample.unavailableThen 1 Sample.aria2cFails) Sample.st
            (fun _ => Sample.e503) 2
            (Errorf_w "aria2c failed: " (errorString "exit status 1"))
            Sample.world _ _ _).
  - lia.
  - intros i Hi. assert (i = 1) as -> by lia.
    split; [intros w; reflexivity|split; reflexivity].
  - split; [intros w; reflexivity|split; reflexivity].
Defined.

(* ===================================================================== *)
(** ** The success path of [downloadFile]                                 *)
(* ===================================================================== *)

Section SuccessPath.

Variable cancelledText : string -> string -> string.

(** An attempt in which every step goes well: the log lines [pre], then
    the update of the transfer's context if the coordinator knows the
    transfer, then the completion line. *)
Lemma downloadFile_completes (out : Outside) (st : DownloadState.t)
    (totalSize : Z) :
  downloadCompletes out totalSize ->
  exists pre : list LogEntry, forall w : World,
    downloadFile cancelledText out st w
    = (None,
       match coordinator w !! DownloadState.TransferID st with
       | None =>
           mkWorld (coordinator w) (activeFiles w)
                   (logs w ++ pre ++ [completedEntry st totalSize])
                   (sleeps w) (S (attempts w)) (reports w)
       | Some transferCtx =>
           let sum := wrap_int64 (TransferContext.DownloadedSize transferCtx
                                  + totalSize) in
           mkWorld (writeDownloadedSize (DownloadState.TransferID st) sum
                      (coordinator w))
                   (activeFiles w)
                   (logs w ++ pre
                    ++ [updatedEntry st totalSize sum
                          (TransferContext.TotalSize transferCtx);
                        completedEntry st totalSize])
                   (sleeps w) (S (attempts w)) (reports w)
       end).
Proof.
  intros ((url & Hurl) & Hmk & Hso & Hse & Hsa & Hwa & Hcx & Hsz).
  destruct out as [url' mk te cf rm so se sa wa cx sz]. simpl in *. subst.
  unfold downloadFile, bind, countAttempt, Log, ret, GetTransferContext,
    storeDownloadedSize, logUpdated, logCompleted. simpl.
  destruct (te && cf); [destruct rm as [err|]|]; simpl.
  - exists [mkLog LInfo [("file_name", VStr (DownloadState.Name st))]
              "Removing existing partial download from previous session";
            mkLog LWarn [("file_name", VStr (DownloadState.Name st));
                         ("error", VErr err)]
              "Failed to remove existing file, continuing anyway";
            mkLog LInfo [("file_name", VStr (DownloadState.Name st))]
              "Starting download with aria2c (16 connections)"].
    intros w. destruct (coordinator w !! DownloadState.TransferID st);
      simpl; rewrite <- ?app_assoc; reflexivity.
  - exists [mkLog LInfo [("file_name", VStr (DownloadState.Name st))]
              "Removing existing partial download from previous session";
            mkLog LInfo [("file_name", VStr (DownloadState.Name st))]
              "Starting download with aria2c (16 connections)"].
    intros w. destruct (coordinator w !! DownloadState.TransferID st);
      simpl; rewrite <- ?app_assoc; reflexivity.
  - exists [mkLog LInfo [("file_name", VStr (DownloadState.Name st))]
              "Starting download with aria2c (16 connections)"].
    intros w. destruct (coordinator w !! DownloadState.TransferID st);
      simpl; rewrite <- ?app_assoc; reflexivity.
Qed.

(** C10. Let every step of an attempt go well and the file have
    [totalSize] bytes. If the coordinator does not know the transfer,
    [downloadFile] returns nil and leaves the registry as it is: no
    context's [DownloadedSize] changes. Next to the run in a world where
    the transfer is registered, the only differences are the write to the
    context and the debug line about it; the attempt count, the other log
    lines (the same [pre], then the completion line with the file's size)
    and the returned nil are the same. *)
Theorem downloadFile_unknown_transfer (out : Outside) (st : DownloadState.t)
    (totalSize : Z) (w : World) :
  downloadCompletes out totalSize ->
  coordinator w !! DownloadState.TransferID st = None ->
  exists pre : list LogEntry,
    downloadFile cancelledText out st w
    = (None,
       mkWorld (coordinator w) (activeFiles w)
               (logs w ++ pre ++ [completedEntry st totalSize])
               (sleeps w) (S (attempts w)) (reports w))
    /\ forall (w' : World) (transferCtx : TransferContext.t),
         coordinator w' !! DownloadState.TransferID st = Some transferCtx ->
         let sum := wrap_int64 (TransferContext.DownloadedSize transferCtx
                                + totalSize) in
         downloadFile cancelledText out st w'
         = (None,
            mkWorld (writeDownloadedSize (DownloadState.TransferID st) sum
                       (coordinator w'))
                    (activeFiles w')
                    (logs w' ++ pre
                     ++ [updatedEntry st totalSize sum
                           (TransferContext.TotalSize transferCtx);
                         completedEntry st totalSize])
                    (sleeps w') (S (attempts w')) (reports w')).
Proof.
  intros Hc Hnone.
  destruct (downloadFile_completes out st totalSize Hc) as (pre & H).
  exists pre. split.
  - rewrite H, Hnone. reflexivity.
  - intros w' transferCtx Hsome. rewrite H, Hsome. reflexivity.
Qed.

Lemma wrap_int64_small (z : Z) :
  - 2 ^ 63 <= z < 2 ^ 63 -> wrap_int64 z = z.
Proof.
  intros H. unfold wrap_int64. rewrite Z.mod_small; lia.
Qed.

Lemma sumSizes_cons (f : Outside * DownloadState.t * Z)
    (files : list (Outside * DownloadState.t * Z)) :
  sumSizes (f :: files) = snd f + sumSizes files.
Proof. reflexivity. Qed.

Lemma sumSizes_nonneg (id : Z) (files : list (Outside * DownloadState.t * Z)) :
  completedFilesOf id files -> 0 <= sumSizes files.
Proof.
  induction 1 as [|f fs (_ & _ & ?) _ IH]; [reflexivity|].
  rewrite sumSizes_cons. lia.
Qed.

(** X9. One worker, one file after the other: the context's
    [DownloadedSize] grows by the sum of the files' sizes, each counted
    once, as long as the sum fits an [int64]. *)
Lemma completeAll_adds_up (id : Z)
    (files : list (Outside * DownloadState.t * Z)) :
  completedFilesOf id files ->
  forall (w : World) (transferCtx : TransferContext.t),
    coordinator w !! id = Some transferCtx ->
    0 <= TransferContext.DownloadedSize transferCtx ->
    TransferContext.DownloadedSize transferCtx + sumSizes files < 2 ^ 63 ->
    TransferContext.DownloadedSize
      <$> coordinator (snd (completeAll cancelledText files w)) !! id
    = Some (TransferContext.DownloadedSize transferCtx + sumSizes files).
Proof.
  induction 1 as [|[[out st] size] files (Hc & Hid & Hsize) Hfiles IH];
    intros w transferCtx Hsome H0 Hsum.
  - simpl. rewrite Hsome. unfold sumSizes. simpl. rewrite Z.add_0_r.
    reflexivity.
  - pose proof (sumSizes_nonneg id files Hfiles) as Hnn.
    rewrite sumSizes_cons in *. simpl in Hc, Hid, Hsize, Hsum |- *.
    unfold bind.
    destruct (downloadFile_completes out st size Hc) as (pre & E).
    rewrite E, Hid, Hsome. cbv zeta.
    rewrite wrap_int64_small by lia.
    rewrite (IH _ (TransferContext.set_DownloadedSize
                     (TransferContext.DownloadedSize transferCtx + size)
                     transferCtx)).
    + simpl. f_equal. lia.
    + simpl. unfold writeDownloadedSize. rewrite lookup_alter_eq, Hsome.
      reflexivity.
    + simpl. lia.
    + simpl. lia.
Qed.

End SuccessPath.

(** A completed download of 1024 bytes for a transfer nobody registered. *)
Lemma downloadFile_unknown_transfer_witness :
  exists pre : list LogEntry,
    downloadFile Sample.cancelledText (Sample.completes 1024) Sample.st
      Sample.world
    = (None,
       mkWorld ∅ ∅ ([] ++ pre ++ [completedEntry Sample.st 1024]) [] 1 []).
Proof.
  destruct (downloadFile_unknown_transfer Sample.cancelledText
              (Sample.completes 1024) Sample.st 1024 Sample.world)
    as (pre & E & _).
  - unfold downloadCompletes. simpl. eauto 10.
  - reflexivity.
  - exists pre. exact E.
Defined.

(* ===================================================================== *)
(** ** Concurrent completions                                             *)
(* ===================================================================== *)

(** C2 fails on the code. Two workers complete the two files (5 and 7
    bytes) of one transfer. When both read [DownloadedSize] before either
    writes, both workers finish and the context holds 7, not 12: the
    first worker's size is lost. *)
Theorem unlocked_update_loses_a_completed_size :
  let cfg := Interleaving.run [0; 1; 0; 1]%nat
               ([Interleaving.start 1 5; Interleaving.start 1 7],
                Sample.registry) in
  Interleaving.allFinished (fst cfg) = true
  /\ TransferContext.DownloadedSize <$> (snd cfg !! 1) = Some 7
  /\ 7 <> 0 + 5 + 7.
Proof.
  split; [|split]; [vm_compute; reflexivity..|lia].
Qed.

(** The same two completions, one after the other, add up. *)
Lemma one_after_another_adds_up :
  let cfg := Interleaving.run (Interleaving.oneAfterAnother 0 2)
               ([Interleaving.start 1 5; Interleaving.start 1 7],
                Sample.registry) in
  Interleaving.allFinished (fst cfg) = true
  /\ TransferContext.DownloadedSize <$> (snd cfg !! 1) = Some (0 + 5 + 7).
Proof.
  split; vm_compute; reflexivity.
Qed.

(** A worker's first access, when the coordinator knows the transfer. *)
Lemma step_lookup (i : nat) (ws : list Interleaving.worker)
    (reg : gmap Z TransferContext.t) (id size : Z)
    (transferCtx : TransferContext.t) :
  ws !! i = Some (Interleaving.start id size) ->
  reg !! id = Some transferCtx ->
  Interleaving.step i (ws, reg)
  = (<[i := Interleaving.mkWorker id size
              (Interleaving.atWrite
                 (wrap_int64 (TransferContext.DownloadedSize transferCtx
                              + size)))]> ws,
     reg).
Proof.
  intros Hw Hr. unfold Interleaving.step. cbn [fst snd]. rewrite Hw.
  unfold Interleaving.step1. cbn. rewrite Hr. reflexivity.
Qed.

(** A worker's second access. *)
Lemma step_write (i : nat) (ws : list Interleaving.worker)
    (reg : gmap Z TransferContext.t) (id size sum : Z) :
  ws !! i = Some (Interleaving.mkWorker id size (Interleaving.atWrite sum)) ->
  Interleaving.step i (ws, reg)
  = (<[i := Interleaving.mkWorker id size Interleaving.finished]> ws,
     writeDownloadedSize id sum reg).
Proof.
  intros Hw. unfold Interleaving.step. cbn [fst snd]. rewrite Hw.
  reflexivity.
Qed.

(** X10. Whatever the two sizes: when both workers read before either
    writes, the second write overwrites the first, and the context holds
    its old value plus the second size only. *)
Lemma both_read_then_both_write (reg : gmap Z TransferContext.t) (id : Z)
    (transferCtx : TransferContext.t) (a b : Z) :
  reg !! id = Some transferCtx ->
  let cfg := Interleaving.run [0; 1; 0; 1]%nat
               ([Interleaving.start id a; Interleaving.start id b], reg) in
  Interleaving.allFinished (fst cfg) = true
  /\ TransferContext.DownloadedSize <$> (snd cfg !! id)
     = Some (wrap_int64 (TransferContext.DownloadedSize transferCtx + b)).
Proof.
  intros H. unfold Interleaving.run. cbn [fold_left].
  rewrite (step_lookup 0 [Interleaving.start id a; Interleaving.start id b]
             reg id a transferCtx eq_refl H).
  cbn [insert list_insert].
  erewrite (step_lookup 1 _ reg id b transferCtx); [|reflexivity|exact H].
  cbn [insert list_insert].
  erewrite (step_write 0 _ reg id a); [|reflexivity].
  cbn [insert list_insert].
  erewrite (step_write 1 _ _ id b); [|reflexivity].
  cbn [insert list_insert].
  split; [reflexivity|]. cbn [snd].
  unfold writeDownloadedSize. rewrite !lookup_alter_eq, H. reflexivity.
Qed.

(** The two accesses of a worker of [Interleaving], made without anyone
    in between, are what [downloadFile] does to the registry. *)
Lemma worker_accesses_are_downloadFile
    (cancelledText : string -> string -> string) (out : Outside)
    (st : DownloadState.t) (totalSize : Z) (w : World) :
  downloadCompletes out totalSize ->
  snd (Interleaving.run [0; 0]%nat
         ([Interleaving.start (DownloadState.TransferID st) totalSize],
          coordinator w))
  = coordinator (snd (downloadFile cancelledText out st w)).
Proof.
  intros Hc.
  destruct (downloadFile_completes cancelledText out st totalSize Hc)
    as (pre & E).
  rewrite E. unfold Interleaving.run, Interleaving.step. simpl.
  unfold Interleaving.step1. simpl.
  destruct (coordinator w !! DownloadState.TransferID st); reflexivity.
Qed.

(* ===================================================================== *)
(** ** The dashboard                                                      *)
(* ===================================================================== *)

(** C9. [formatDuration] maps 0 to "0s", 125 to "2m5s", 3700 to "1h1m",
    and every negative number of seconds to "unknown". *)
Theorem formatDuration_vectors :
  formatDuration 0 = "0s"
  /\ formatDuration 125 = "2m5s"
  /\ formatDuration 3700 = "1h1m"
  /\ forall seconds, seconds < 0 -> formatDuration seconds = "unknown".
Proof.
  repeat split; try reflexivity.
  intros seconds H. unfold formatDuration.
  destruct (Z.ltb_spec seconds 0); [reflexivity|lia].
Qed.

Lemma formatDuration_vectors_witness : formatDuration (-90) = "unknown".
Proof.
  apply (proj2 (proj2 (proj2 formatDuration_vectors))). lia.
Defined.

Section Dashboard.

Lemma shown_iff (ctx : TransferContext.t) :
  shown ctx = true
  <-> TransferContext.State ctx = TransferLifecycleDownloading
      /\ TransferContext.TotalSize ctx > 0.
Proof.
  unfold shown. rewrite andb_true_iff, Z.gtb_gt.
  destruct (TransferContext.State ctx); simpl; intuition discriminate.
Qed.

(** The visitor leaves the context as it found it (the read lock it took
    is released) and appends an entry exactly when the transfer is shown. *)
Lemma visitor_spec (now : Time) (ctx : TransferContext.t)
    (downloads : list DownloadInfo.t) :
  visitor now ctx downloads
  = (ctx, if shown ctx then (downloads ++ [downloadInfo now ctx])%list
          else downloads).
Proof.
  destruct ctx as [id name state total done start [readers]].
  unfold visitor, shown, downloadInfo, TransferContext.set_Mu,
    RWMutex.RLock, RWMutex.RUnlock. simpl.
  replace (readers + 1 - 1) with readers by lia. reflexivity.
Qed.

Lemma GetAllTransfers_visitor (transfers : list (TransferContext.t * Time))
    (acc : list DownloadInfo.t) :
  GetAllTransfers visitor transfers acc
  = (map fst transfers,
     (acc ++ map (fun t => downloadInfo (snd t) (fst t))
                 (List.filter (fun t => shown (fst t)) transfers))%list).
Proof.
  revert acc. induction transfers as [|[ctx now] rest IH]; intros acc.
  - simpl. rewrite app_nil_r. reflexivity.
  - cbn [GetAllTransfers]. rewrite visitor_spec, IH. simpl.
    destruct (shown ctx); simpl; [rewrite <- app_assoc|]; reflexivity.
Qed.

(** C8. The list the dashboard handler returns holds one entry for each
    visited transfer whose [State] is [Downloading] and whose [TotalSize]
    is greater than zero, in the order of the visits, and none for any
    other transfer. The contexts are left as they were. An entry is
    determined by the context's [Name], [DownloadedSize], [TotalSize] and
    [StartTime] and the clock. *)
Theorem handleDashboardAPI_snapshot
    (transfers : list (TransferContext.t * Time)) :
  handleDashboardAPI transfers
  = (map fst transfers,
     map (fun t => downloadInfo (snd t) (fst t))
         (List.filter (fun t => shown (fst t)) transfers))
  /\ (forall ctx, shown ctx = true
                  <-> TransferContext.State ctx = TransferLifecycleDownloading
                      /\ TransferContext.TotalSize ctx > 0)
  /\ (forall now ctx ctx',
        TransferContext.Name ctx = TransferContext.Name ctx' ->
        TransferContext.DownloadedSize ctx
        = TransferContext.DownloadedSize ctx' ->
        TransferContext.TotalSize ctx = TransferContext.TotalSize ctx' ->
        TransferContext.StartTime ctx = TransferContext.StartTime ctx' ->
        downloadInfo now ctx = downloadInfo now ctx').
Proof.
  split; [|split].
  - unfold handleDashboardAPI. rewrite GetAllTransfers_visitor. reflexivity.
  - apply shown_iff.
  - intros now ctx ctx' H1 H2 H3 H4. unfold downloadInfo.
    rewrite H1, H2, H3, H4. reflexivity.
Qed.

End Dashboard.

(** A transfer in progress is listed; one whose total size is unknown
    and a completed one are not. *)
Example handleDashboardAPI_sample :
  map (fun d => (DownloadInfo.Name d, DownloadInfo.ETA d))
      (snd (handleDashboardAPI
              [(Sample.halfDone, 11000000000);
               (Sample.sizeUnknown, 11000000000);
               (Sample.completed, 11000000000)]))
  = [("Season 2", "10s")].
Proof. vm_compute. reflexivity. Qed.

(** A context with another id, state and lock, and the same four
    fields, gives the same entry. *)
Lemma handleDashboardAPI_snapshot_witness :
  downloadInfo 11000000000 Sample.halfDone
  = downloadInfo 11000000000
      (TransferContext.mk 9 "Season 2" TransferLifecycleCompleted
                          209715200 104857600 1000000000 (RWMutex.mk 3)).
Proof.
  apply (proj2 (proj2 (handleDashboardAPI_snapshot []))); reflexivity.
Defined.

(* ===================================================================== *)
(** ** The progress pattern                                               *)
(* ===================================================================== *)

Section RegexpFacts.

Lemma allIn_app (cls : ascii -> bool) (a b : string) :
  allIn cls (a ++ b) = allIn cls a && allIn cls b.
Proof.
  induction a as [|c a IH]; [reflexivity|].
  rewrite append_cons. simpl. rewrite IH, andb_assoc. reflexivity.
Qed.

(** Whatever the loops return was returned by their continuation. *)
Lemma greedyStar_inv {R : Type} (P : R -> Prop) (cls : ascii -> bool)
    (k : string -> string -> option R) :
  (forall text rest r, allIn cls text = true -> k text rest = Some r -> P r) ->
  forall s acc r,
    allIn cls acc = true -> Regexp.greedyStar cls k acc s = Some r -> P r.
Proof.
  intros Hk. induction s as [|c s IH]; intros acc r Hacc; simpl.
  - apply Hk, Hacc.
  - destruct (cls c) eqn:Hc; [|apply Hk, Hacc].
    destruct (Regexp.greedyStar cls k (acc ++ String c EmptyString) s) as [r'|] eqn:E.
    + intros [= <-]. refine (IH _ _ _ E).
      rewrite allIn_app, Hacc. simpl. rewrite Hc. reflexivity.
    + apply Hk, Hacc.
Qed.

Lemma greedyStar_any {R : Type} (P : R -> Prop) (cls : ascii -> bool)
    (k : string -> string -> option R) :
  (forall text rest r, k text rest = Some r -> P r) ->
  forall s acc r, Regexp.greedyStar cls k acc s = Some r -> P r.
Proof.
  intros Hk. induction s as [|c s IH]; intros acc r; simpl.
  - apply Hk.
  - destruct (cls c); [|apply Hk].
    destruct (Regexp.greedyStar cls k (acc ++ String c EmptyString) s) as [r'|] eqn:E.
    + intros [= <-]. apply (IH _ _ E).
    + apply Hk.
Qed.

Lemma lazyStar_inv {R : Type} (P : R -> Prop) (cls : ascii -> bool)
    (k : string -> option R) :
  (forall rest r, k rest = Some r -> P r) ->
  forall s r, Regexp.lazyStar cls k s = Some r -> P r.
Proof.
  intros Hk. induction s as [|c s IH]; intros r; simpl.
  - destruct (k EmptyString) eqn:E; [intros [= <-]; eapply Hk, E|discriminate].
  - destruct (k (String c s)) eqn:E; [intros [= <-]; eapply Hk, E|].
    destruct (cls c); [apply IH|discriminate].
Qed.

Lemma firstAlt_inv {R : Type} (P : R -> Prop) (alts : list string)
    (k : string -> option R) :
  (forall alt r, In alt alts -> k alt = Some r -> P r) ->
  forall r, Regexp.firstAlt alts k = Some r -> P r.
Proof.
  induction alts as [|alt alts IH]; intros Hk r; simpl; [discriminate|].
  destruct (k alt) eqn:E.
  - intros [= <-]. eapply Hk; [left; reflexivity|exact E].
  - apply IH. intros alt' r' Hin. apply Hk. right. exact Hin.
Qed.

Lemma setGroup_length (g : option nat) (text : string) (caps : list string) :
  length (Regexp.setGroup g text caps) = length caps.
Proof. destruct g; simpl; [apply length_insert|reflexivity]. Qed.

Lemma setGroup_other (g : option nat) (i : nat) (text : string)
    (caps : list string) :
  g <> Some i -> Regexp.setGroup g text caps !! i = caps !! i.
Proof.
  destruct g as [j|]; simpl; [|reflexivity].
  intros H. apply list_lookup_insert_ne. congruence.
Qed.

(** Items that do not write group [i] leave it as it is. *)
Lemma matchHere_keeps (i : nat) (prog : list Regexp.node) :
  Forall (fun n => groupOf n <> Some i) prog ->
  forall caps s r, Regexp.matchHere prog caps s = Some r ->
                   fst r !! i = caps !! i.
Proof.
  induction prog as [|n prog IH]; intros Hk caps s r.
  - simpl. intros [= <-]. reflexivity.
  - inversion Hk as [|? ? Hn Hprog]; subst. specialize (IH Hprog).
    destruct n as [l|g cls|cls|g alts]; simpl in *.
    + destruct (stripPrefix l s); [apply IH|discriminate].
    + destruct s as [|c s]; [discriminate|].
      destruct (cls c); [|discriminate].
      apply (greedyStar_any (fun r => fst r !! i = caps !! i) cls).
      intros text rest r' E. rewrite (IH _ _ _ E).
      apply setGroup_other, Hn.
    + apply (lazyStar_inv (fun r => fst r !! i = caps !! i)).
      intros rest r'. apply IH.
    + apply (firstAlt_inv (fun r => fst r !! i = caps !! i)).
      intros alt r' _. destruct (stripPrefix alt s); [|discriminate].
      intros E. rewrite (IH _ _ _ E). apply setGroup_other, Hn.
Qed.

(** A property of every match of the rest of a pattern is a property of
    every match of the pattern. *)
Lemma matchHere_suffix (N : nat) (P : list string * string -> Prop)
    (prog1 prog2 : list Regexp.node) :
  (forall caps s r, length caps = N ->
                    Regexp.matchHere prog2 caps s = Some r -> P r) ->
  forall caps s r, length caps = N ->
                   Regexp.matchHere (prog1 ++ prog2) caps s = Some r -> P r.
Proof.
  intros H2. induction prog1 as [|n prog1 IH]; intros caps s r Hlen.
  - apply H2, Hlen.
  - destruct n as [l|g cls|cls|g alts]; simpl.
    + destruct (stripPrefix l s); [apply IH, Hlen|discriminate].
    + destruct s as [|c s]; [discriminate|].
      destruct (cls c); [|discriminate].
      apply (greedyStar_any P cls).
      intros text rest r'. apply IH. rewrite setGroup_length. exact Hlen.
    + apply (lazyStar_inv P). intros rest r'. apply IH, Hlen.
    + apply (firstAlt_inv P). intros alt r' _.
      destruct (stripPrefix alt s); [|discriminate].
      apply IH. rewrite setGroup_length. exact Hlen.
Qed.

(** A group that wraps an alternation holds one of the alternatives. *)
Lemma matchHere_group_Alt (N i : nat) (alts : list string)
    (prog1 post : list Regexp.node) :
  (i < N)%nat ->
  Forall (fun n => groupOf n <> Some i) post ->
  forall caps s r,
    length caps = N ->
    Regexp.matchHere (prog1 ++ Regexp.Alt (Some i) alts :: post) caps s
    = Some r ->
    exists alt, In alt alts /\ fst r !! i = Some alt.
Proof.
  intros Hi Hpost. apply matchHere_suffix. intros caps s r Hlen. simpl.
  apply (firstAlt_inv (fun r => exists alt, In alt alts /\ fst r !! i = Some alt)).
  intros alt r' Hin. destruct (stripPrefix alt s); [|discriminate].
  intros E. exists alt. split; [exact Hin|].
  rewrite (matchHere_keeps i post Hpost _ _ _ E).
  apply list_lookup_insert_eq. lia.
Qed.

(** A group that wraps [c+] holds bytes of the class [c] only. *)
Lemma matchHere_group_Plus (N i : nat) (cls : ascii -> bool)
    (prog1 post : list Regexp.node) :
  (i < N)%nat ->
  Forall (fun n => groupOf n <> Some i) post ->
  forall caps s r,
    length caps = N ->
    Regexp.matchHere (prog1 ++ Regexp.Plus (Some i) cls :: post) caps s
    = Some r ->
    exists text, allIn cls text = true /\ fst r !! i = Some text.
Proof.
  intros Hi Hpost. apply matchHere_suffix. intros caps s r Hlen. simpl.
  destruct s as [|c s]; [discriminate|].
  destruct (cls c) eqn:Hc; [|discriminate].
  apply (greedyStar_inv
           (fun r => exists text, allIn cls text = true /\ fst r !! i = Some text)
           cls).
  - intros text rest r' Htext E. exists text. split; [exact Htext|].
    rewrite (matchHere_keeps i post Hpost _ _ _ E).
    apply list_lookup_insert_eq. lia.
  - simpl. rewrite Hc. reflexivity.
Qed.

(** A match that [FindStringSubmatch] reports is a match of the pattern
    at some position, with element 0 set to the matched text. *)
Lemma FindStringSubmatch_Some (prog : list Regexp.node) (groups : nat)
    (s : string) (m : list string) :
  Regexp.FindStringSubmatch prog groups s = Some m ->
  exists s' caps rest whole,
    Regexp.matchHere prog (replicate (S groups) EmptyString) s' = Some (caps, rest)
    /\ m = <[O := whole]> caps.
Proof.
  induction s as [|c s IH]; simpl.
  - destruct (Regexp.matchHere prog _ EmptyString) as [[caps rest]|] eqn:E;
      [|discriminate].
    intros [= <-]. eauto 6.
  - destruct (Regexp.matchHere prog _ (String c s)) as [[caps rest]|] eqn:E.
    + intros [= <-]. eauto 6.
    + exact IH.
Qed.

End RegexpFacts.

Section ProgressLines.

Lemma matchHere_length (N : nat) (prog : list Regexp.node) :
  forall caps s r, length caps = N ->
                   Regexp.matchHere prog caps s = Some r ->
                   length (fst r) = N.
Proof.
  rewrite <- (app_nil_r prog).
  apply (matchHere_suffix N (fun r => length (fst r) = N)).
  intros caps s r Hlen. simpl. intros [= <-]. exact Hlen.
Qed.

(** What the groups of a match of the progress pattern hold: digits in
    group 1, digits and dots in group 2 (the texts [strconv.ParseFloat]
    is modelled on), and one of the three units in group 3. *)
Lemma progressRegex_groups (line : string) (matches : list string) :
  Regexp.FindStringSubmatch progressRegex 4 line = Some matches ->
  length matches = 5%nat
  /\ allIn Regexp.digit (nth 1 matches EmptyString) = true
  /\ allIn Regexp.digitOrDot (nth 2 matches EmptyString) = true
  /\ In (nth 3 matches EmptyString) ["KiB"; "MiB"; "GiB"].
Proof.
  intros H. apply FindStringSubmatch_Some in H.
  destruct H as (s & caps & rest & whole & E & ->).
  assert (Hlen : length (replicate 5 EmptyString) = 5%nat) by reflexivity.
  pose proof (matchHere_length 5 _ _ _ _ Hlen E) as Hcaps.
  rewrite length_insert, !nth_lookup, !list_lookup_insert_ne by lia.
  split; [exact Hcaps|]. split; [|split].
  - destruct (matchHere_group_Plus 5 1 Regexp.digit
                (firstn 3 progressRegex) (skipn 4 progressRegex)
                ltac:(lia) ltac:(repeat constructor; discriminate)
                _ _ _ Hlen E) as (text & Htext & Hl).
    simpl in Hl. rewrite Hl. exact Htext.
  - destruct (matchHere_group_Plus 5 2 Regexp.digitOrDot
                (firstn 7 progressRegex) (skipn 8 progressRegex)
                ltac:(lia) ltac:(repeat constructor; discriminate)
                _ _ _ Hlen E) as (text & Htext & Hl).
    simpl in Hl. rewrite Hl. exact Htext.
  - destruct (matchHere_group_Alt 5 3 ["KiB"; "MiB"; "GiB"]
                (firstn 8 progressRegex) (skipn 9 progressRegex)
                ltac:(lia) ltac:(repeat constructor; discriminate)
                _ _ _ Hlen E) as (alt & Halt & Hl).
    simpl in Hl. rewrite Hl. exact Halt.
Qed.

(** C6. The sample line of the source parses to 11 percent, 45.2 MB/s
    and the ETA "3m12s". For every line that matches the progress
    pattern the unit is KiB, GiB or MiB, and the speed in MB/s is the
    parsed speed divided by 1024, multiplied by 1024, or unchanged. A
    line with DL:900KiB gives 900/1024 = 0.87890625 MB/s, which is 0.879
    to three decimals. *)
Theorem progress_line_parsing :
  parseProgressLine "[#1 SIZE:1.2GiB/10.5GiB(11%) CN:16 DL:45.2MiB ETA:3m12s]"
  = Some (mkProgressLine 11 45.2 "MiB" "3m12s" 45.2)
  /\ (forall line p,
        parseProgressLine line = Some p ->
        In (speedUnit p) ["KiB"; "MiB"; "GiB"]
        /\ (speedUnit p = "KiB" -> speedMBps p = (speed p / 1024)%Q)
        /\ (speedUnit p = "GiB" -> speedMBps p = (speed p * 1024)%Q)
        /\ (speedUnit p = "MiB" -> speedMBps p = speed p))
  /\ (exists p,
        parseProgressLine
          "[#1 SIZE:1.2GiB/10.5GiB(11%) CN:16 DL:900KiB ETA:3h2m]" = Some p
        /\ speed p = 900%Q /\ speedUnit p = "KiB"
        /\ (speedMBps p == 0.87890625)%Q
        /\ (0.8785 <= speedMBps p < 0.8795)%Q).
Proof.
  split; [vm_compute; reflexivity|]. split.
  - intros line p. unfold parseProgressLine.
    destruct (Regexp.FindStringSubmatch progressRegex 4 line)
      as [matches|] eqn:E; [|discriminate].
    destruct (progressRegex_groups _ _ E) as (_ & _ & _ & Hunit).
    destruct (5 <=? length matches)%nat; [|discriminate].
    intros [= <-]. simpl. split; [exact Hunit|]. unfold toMBps.
    repeat split; intros ->; reflexivity.
  - eexists. split; [vm_compute; reflexivity|]. simpl.
    repeat split; try reflexivity; vm_compute; congruence.
Qed.

Lemma progress_line_parsing_witness :
  exists p, parseProgressLine Sample.fastLine = Some p
            /\ speedUnit p = "GiB" /\ speedMBps p = (speed p * 1024)%Q.
Proof.
  exists (mkProgressLine 12 1.5 "GiB" "6s" (1.5 * 1024)%Q).
  assert (Hp : parseProgressLine Sample.fastLine
               = Some (mkProgressLine 12 1.5 "GiB" "6s" (1.5 * 1024)%Q))
    by reflexivity.
  split; [exact Hp|]. split; [reflexivity|].
  apply (proj1 (proj2 progress_line_parsing) _ _ Hp). reflexivity.
Defined.

End ProgressLines.

(* ===================================================================== *)
(** ** The rate limit of the progress log                                 *)
(* ===================================================================== *)

Section RateLimit.

Variable ProgressUpdateInterval : Duration.
Variable st : DownloadState.t.
Variable now : Time.
Variable lines : list Scanned.

Lemma monitorAfter_S (i : nat) (sc : Scanned) :
  lines !! i = Some sc ->
  monitorAfter ProgressUpdateInterval st now lines (S i)
  = monitorLine ProgressUpdateInterval
      (monitorAfter ProgressUpdateInterval st now lines i) sc.
Proof.
  intros H. unfold monitorAfter, monitorAria2cProgress.
  rewrite (take_S_r _ _ _ H), fold_left_app. reflexivity.
Qed.

(** Handling a line writes the progress line exactly when the line
    parses and the guard holds for the loop's locals. *)
Lemma progressLogged_step (i : nat) (sc : Scanned) :
  lines !! i = Some sc ->
  progressLogged ProgressUpdateInterval st now lines i
  = match parseProgressLine (line sc) with
    | Some p => logDue ProgressUpdateInterval
                  (monitorAfter ProgressUpdateInterval st now lines i) sc p
    | None => false
    end.
Proof.
  intros H. unfold progressLogged. rewrite (monitorAfter_S i sc H).
  unfold monitorLine.
  destruct (parseProgressLine (line sc)) as [p|].
  - destruct (logDue _ _ sc p); simpl.
    + rewrite drop_app_length. reflexivity.
    + rewrite drop_all. reflexivity.
  - destruct (_ || _ || _ || Contains _ _); simpl.
    + rewrite drop_app_length. reflexivity.
    + rewrite drop_all. reflexivity.
Qed.

(** The loop's locals [lastLogTime] and [lastProgress] are the clock
    reading and the percentage of the last progress line in the log. *)
Lemma locals_are_lastLogged (i : nat) :
  (i <= length lines)%nat ->
  (lastLogTime (monitorAfter ProgressUpdateInterval st now lines i),
   lastProgress (monitorAfter ProgressUpdateInterval st now lines i))
  = lastLogged ProgressUpdateInterval st now lines i.
Proof.
  induction i as [|i IH]; intros Hi; [reflexivity|].
  destruct (lookup_lt_is_Some_2 lines i ltac:(lia)) as [sc Hsc].
  specialize (IH ltac:(lia)).
  cbn [lastLogged]. rewrite (progressLogged_step i sc Hsc), Hsc.
  rewrite (monitorAfter_S i sc Hsc). unfold monitorLine.
  destruct (parseProgressLine (line sc)) as [p|].
  - destruct (logDue _ _ sc p); [reflexivity|exact IH].
  - destruct (_ || _ || _ || Contains _ _); exact IH.
Qed.

(** C7. Handling a scanned line writes a progress log line exactly when
    the line parses, at least the configured interval has passed since
    the last progress line was logged, and the parsed percentage differs
    from the percentage of that line. Before the first progress line,
    the monitor's start and 0 percent stand in for it. *)
Theorem progress_log_rate_limit (i : nat) (sc : Scanned) :
  lines !! i = Some sc ->
  progressLogged ProgressUpdateInterval st now lines i = true
  <-> exists p,
        parseProgressLine (line sc) = Some p
        /\ ProgressUpdateInterval
           <= Since (nowSince sc)
                    (fst (lastLogged ProgressUpdateInterval st now lines i))
        /\ ~ (progress p
              == snd (lastLogged ProgressUpdateInterval st now lines i))%Q.
Proof.
  intros Hsc.
  assert (Hi : (i <= length lines)%nat).
  { apply Nat.lt_le_incl, lookup_lt_is_Some_1. eauto. }
  rewrite (progressLogged_step i sc Hsc), <- (locals_are_lastLogged i Hi).
  simpl. destruct (parseProgressLine (line sc)) as [p|].
  - unfold logDue. rewrite andb_true_iff, negb_true_iff, Z.leb_le.
    rewrite <- not_true_iff_false, Qeq_bool_iff. split.
    + intros [H1 H2]. exists p. auto.
    + intros (p' & [= <-] & H1 & H2). auto.
  - split; [discriminate|]. intros (p & [=] & _).
Qed.

End RateLimit.

(** With an interval of five seconds: a line at 11 percent, six seconds
    after the start, is logged. *)
Lemma progress_log_rate_limit_witness :
  progressLogged (5 * Second) Sample.st 0 Sample.scans 0 = true.
Proof.
  apply (progress_log_rate_limit (5 * Second) Sample.st 0 Sample.scans 0
           (mkScanned Sample.progressLine 6000000000 6000000000 6000000000)
           eq_refl).
  exists (mkProgressLine 11 45.2 "MiB" "3m12s" 45.2).
  split; [reflexivity|]. split; [vm_compute; discriminate|].
  vm_compute. discriminate.
Defined.

(** The next line, at 12 percent two seconds later, is not. *)
Lemma progress_log_rate_limit_too_early :
  progressLogged (5 * Second) Sample.st 0 Sample.scans 1 = false.
Proof. vm_compute. reflexivity. Qed.

(* ===================================================================== *)
(** ** More about one attempt                                             *)
(* ===================================================================== *)

(** Case analysis over everything the outside world can answer during a
    call of [downloadFile]. *)
Ltac downloadFile_cases :=
  unfold downloadFile, bind, countAttempt, Log, ret, GetTransferContext,
    storeDownloadedSize, logUpdated, logCompleted;
  repeat (simpl;
          match goal with
          | |- context [match ?x with _ => _ end] => is_var x; destruct x
          | |- context [if ?x then _ else _] => destruct x
          | |- context [match ?m !! ?k with _ => _ end] =>
              destruct (m !! k) eqn:?
          end);
  simpl.

Section AttemptFacts.

Variable cancelledText : string -> string -> string.

(** Whatever happens, an attempt counts once and leaves the active
    files, the sleeps and the reports alone. *)
Lemma downloadFile_frame (out : Outside) (st : DownloadState.t) (w : World) :
  let w' := snd (downloadFile cancelledText out st w) in
  activeFiles w' = activeFiles w /\ sleeps w' = sleeps w
  /\ reports w' = reports w /\ attempts w' = S (attempts w).
Proof.
  destruct out as [url mk te cf rm so se sa wa cx sz].
  downloadFile_cases; tauto.
Qed.

(** What an attempt does to the registry: nothing, or, when it returns
    nil for a registered transfer, one write to that transfer's
    [DownloadedSize]. *)
Lemma downloadFile_registry (out : Outside) (st : DownloadState.t)
    (w : World) :
  let r := fst (downloadFile cancelledText out st w) in
  let w' := snd (downloadFile cancelledText out st w) in
  coordinator w' = coordinator w
  \/ (r = None
      /\ exists transferCtx totalSize,
           coordinator w !! DownloadState.TransferID st = Some transferCtx
           /\ Stat out = Ok totalSize
           /\ coordinator w'
              = writeDownloadedSize (DownloadState.TransferID st)
                  (wrap_int64 (TransferContext.DownloadedSize transferCtx
                               + totalSize))
                  (coordinator w)).
Proof.
  destruct out as [url mk te cf rm so se sa wa cx sz].
  downloadFile_cases; try (left; reflexivity); right; eauto 6.
Qed.

(** X1. An attempt never adds or removes a transfer, never touches
    another transfer's context, and changes nothing but [DownloadedSize]
    in the context of its own transfer; an attempt that returns an error
    leaves the whole registry as it was. *)
Theorem downloadFile_registry_frame (out : Outside) (st : DownloadState.t)
    (w : World) :
  let r := fst (downloadFile cancelledText out st w) in
  let w' := snd (downloadFile cancelledText out st w) in
  dom (coordinator w') = dom (coordinator w)
  /\ (forall id, id <> DownloadState.TransferID st ->
                 coordinator w' !! id = coordinator w !! id)
  /\ (forall transferCtx',
        coordinator w' !! DownloadState.TransferID st = Some transferCtx' ->
        exists transferCtx,
          coordinator w !! DownloadState.TransferID st = Some transferCtx
          /\ transferCtx'
             = TransferContext.set_DownloadedSize
                 (TransferContext.DownloadedSize transferCtx') transferCtx)
  /\ (r <> None -> coordinator w' = coordinator w).
Proof.
  intros r w'.
  destruct (downloadFile_registry out st w)
    as [E|(Hr & ctx & size & Hctx & _ & E)]; fold w' in E.
  - rewrite E. repeat split; auto.
    intros ctx' H. exists ctx'. split; [exact H|].
    destruct ctx'; reflexivity.
  - rewrite E. unfold writeDownloadedSize. repeat split.
    + apply dom_alter_L.
    + intros id Hid. apply lookup_alter_ne. congruence.
    + intros ctx'. rewrite lookup_alter_eq, Hctx. simpl. intros [= <-].
      exists ctx. split; reflexivity.
    + fold r in Hr. congruence.
Qed.

(** The errors an attempt can return: the cancellation error, or one of
    seven wrappers around what the outside world reported. *)
Lemma downloadFile_errors (out : Outside) (st : DownloadState.t) (w : World)
    (e : error) :
  fst (downloadFile cancelledText out st w) = Some e ->
  e = NewDownloadCancelledError cancelledText (DownloadState.Name st)
        "download stopped"
  \/ exists prefix inner,
       In prefix ["failed to get download URL: ";
                  "failed to create directory: ";
                  "failed to create stdout pipe: ";
                  "failed to create stderr pipe: ";
                  "failed to start aria2c: ";
                  "aria2c failed: ";
                  "failed to verify downloaded file: "]
       /\ e = Errorf_w prefix inner.
Proof.
  destruct out as [url mk te cf rm so se sa wa cx sz].
  downloadFile_cases; intros [= <-];
    solve [ left; reflexivity
          | right; do 2 eexists; split; [|reflexivity]; simpl; tauto ].
Qed.

(** X2. An error that [downloadFile] returns is never one of the three
    texts the classifier compares with ("connection reset", "connection
    refused", "i/o timeout"), because every such error carries the
    prefix of the step that failed. Unless it is the cancellation, it is
    retried exactly when 429, 502, 503 or 504 occurs in its text. *)
Theorem downloadFile_error_retried_iff_status (out : Outside)
    (st : DownloadState.t) (w : World) (e : error) :
  fst (downloadFile cancelledText out st w) = Some e ->
  isDownloadCancelled e = false ->
  ~ isConnectionFailureText e
  /\ (isTransientError (Some e) = true <-> mentionsRetryableStatus e).
Proof.
  intros H Hc.
  assert (Hn : ~ isConnectionFailureText e).
  { destruct (downloadFile_errors out st w e H)
      as [->|(prefix & inner & Hin & ->)]; [discriminate Hc|].
    unfold isConnectionFailureText, Errorf_w. simpl Error.
    simpl in Hin.
    destruct Hin as [<-|[<-|[<-|[<-|[<-|[<-|[<-|[]]]]]]]];
      rewrite append_cons; intros [E|[E|E]]; discriminate E. }
  split; [exact Hn|].
  unfold isTransientError. rewrite Hc.
  rewrite <- mentionsRetryableStatus_bool.
  destruct (String.eqb (Error e) "connection reset"
            || String.eqb (Error e) "connection refused"
            || String.eqb (Error e) "i/o timeout") eqn:E.
  - exfalso. apply Hn, isConnectionFailureText_bool, E.
  - destruct (_ || _ || _ || Contains _ _); intuition discriminate.
Qed.

End AttemptFacts.

(** aria2c reports a reset connection; the attempt's error is final. *)
Lemma downloadFile_error_retried_iff_status_witness :
  isTransientError
    (Some (Errorf_w "aria2c failed: " (errorString "connection reset")))
  = true
  <-> mentionsRetryableStatus
        (Errorf_w "aria2c failed: " (errorString "connection reset")).
Proof.
  refine (proj2 (downloadFile_error_retried_iff_status Sample.cancelledText
                   (mkOutside (Ok "https://example.org/f") None false false
                      None None None None
                      (Some (errorString "connection reset")) false (Ok 0))
                   Sample.st Sample.world _ _ _)); reflexivity.
Defined.

Section Cancellation.

Variable cancelledText : string -> string -> string.

(** X3. [downloadFile] returns the cancellation error exactly when
    aria2c was started and the shutdown was seen by the time it exited,
    whatever exit status aria2c had. A failure before the start is
    reported as that failure even during a shutdown, and the worker then
    treats it like any failed download. *)
Theorem downloadFile_cancelled_iff (out : Outside) (st : DownloadState.t)
    (w : World) :
  (exists e, fst (downloadFile cancelledText out st w) = Some e
             /\ isDownloadCancelled e = true)
  <-> aria2cStarted out /\ ctxErr out = true.
Proof.
  unfold aria2cStarted.
  destruct out as [url mk te cf rm so se sa wa cx sz]. simpl. split.
  - intros (e & H & Hc). revert H.
    downloadFile_cases; intros [= <-]; try discriminate Hc;
      repeat split; eauto.
  - intros (((u & ->) & -> & -> & -> & ->) & ->).
    exists (NewDownloadCancelledError cancelledText (DownloadState.Name st)
              "download stopped").
    split; [|reflexivity]. downloadFile_cases; reflexivity.
Qed.

End Cancellation.

(** The shutdown arrives while aria2c runs. *)
Lemma downloadFile_cancelled_iff_witness :
  exists e, fst (downloadFile Sample.cancelledText Sample.shutdown Sample.st
                   Sample.world) = Some e
            /\ isDownloadCancelled e = true.
Proof.
  apply (proj2 (downloadFile_cancelled_iff Sample.cancelledText
                  Sample.shutdown Sample.st Sample.world)).
  unfold aria2cStarted. simpl. eauto 10.
Defined.

(* ===================================================================== *)
(** ** More about the retry loop and the worker                           *)
(* ===================================================================== *)

Section RetryOutcome.

Variable cancelledText : string -> string -> string.
Variable script : Z -> Outside.
Variable st : DownloadState.t.

(** One iteration of the loop, spelled out on the world. *)
Lemma retryLoop_S (n : nat) (a : Z) (last : option error) (w : World) :
  retryLoop cancelledText script st (S n) a last w
  = let (r, w0) := downloadFile cancelledText (script a) st w in
    match r with
    | Some err =>
        if isDownloadCancelled err then (Some err, w0)
        else if isTransientError (Some err) then
          retryLoop cancelledText script st n (a + 1) (Some err)
            (mkWorld (coordinator w0) (activeFiles w0)
               (logs w0 ++
                [mkLog LWarn [("file_name", VStr (DownloadState.Name st));
                              ("attempt", VInt a); ("error", VErr err)]
                   "Retrying download after error"])
               (sleeps w0 ++ [Second * a]) (attempts w0) (reports w0))
        else (Some (Errorf_w ("permanent error on attempt " ++ itoa a
                              ++ ": ") err), w0)
    | None => (None, w0)
    end.
Proof.
  simpl retryLoop. unfold bind at 1.
  destruct (downloadFile cancelledText (script a) st w) as [[err|] w0];
    [|reflexivity].
  destruct (isDownloadCancelled err); [reflexivity|].
  destruct (isTransientError (Some err)); reflexivity.
Qed.

(** How a run of the loop can end, and what it has done by then:
    [made] attempts and [slept] sleeps. *)
Lemma retryLoop_outcome (n : nat) :
  forall (a : Z) (last : option error) (w : World),
  (n = O -> exists inner, last = Some inner
                          /\ isDownloadCancelled inner = false
                          /\ isTransientError (Some inner) = true) ->
  let r := fst (retryLoop cancelledText script st n a last w) in
  let w' := snd (retryLoop cancelledText script st n a last w) in
  activeFiles w' = activeFiles w /\ reports w' = reports w
  /\ exists made slept : nat,
       attempts w' = (attempts w + made)%nat
       /\ sleeps w' = (sleeps w ++ backoff a slept)%list
       /\ (made <= n)%nat
       /\ match r with
          | None => S slept = made
          | Some e =>
              coordinator w' = coordinator w
              /\ ((isDownloadCancelled e = true /\ S slept = made)
                  \/ (exists inner,
                        isDownloadCancelled inner = false
                        /\ isTransientError (Some inner) = false
                        /\ e = Errorf_w ("permanent error on attempt "
                                         ++ itoa (a + Z.of_nat slept) ++ ": ")
                                        inner
                        /\ S slept = made)
                  \/ (exists inner,
                        isDownloadCancelled inner = false
                        /\ isTransientError (Some inner) = true
                        /\ e = Errorf_w "failed after 3 attempts, last error: "
                                        inner
                        /\ made = n /\ slept = n))
          end.
Proof.
  induction n as [|n IH]; intros a last w Hlast.
  - destruct (Hlast eq_refl) as (inner & -> & Hc & Ht). simpl.
    split; [reflexivity|]. split; [reflexivity|]. exists O, O.
    rewrite Nat.add_0_r, app_nil_r.
    repeat split; try reflexivity. right. right. exists inner. auto.
  - pose proof (downloadFile_frame cancelledText (script a) st w) as Hfr.
    pose proof (downloadFile_registry cancelledText (script a) st w) as Hreg.
    rewrite retryLoop_S.
    destruct (downloadFile cancelledText (script a) st w) as [r0 w0].
    simpl in Hfr, Hreg. destruct Hfr as (F1 & F2 & F3 & F4).
    destruct r0 as [err|].
    + assert (Hco : coordinator w0 = coordinator w).
      { destruct Hreg as [E|(E & _)]; [exact E|discriminate E]. }
      destruct (isDownloadCancelled err) eqn:Hc.
      { simpl. split; [exact F1|]. split; [exact F3|]. exists 1%nat, O.
        rewrite F4, F2, app_nil_r, Nat.add_1_r.
        repeat split; auto; lia. }
      destruct (isTransientError (Some err)) eqn:Ht.
      * match goal with
        | |- context [retryLoop _ _ _ n (a + 1) (Some err) ?w1] =>
            specialize (IH (a + 1) (Some err) w1)
        end.
        assert (Hn : n = O -> exists inner,
                     Some err = Some inner
                     /\ isDownloadCancelled inner = false
                     /\ isTransientError (Some inner) = true).
        { intros _. exists err. auto. }
        specialize (IH Hn). clear Hn. revert IH.
        match goal with
        | |- context [retryLoop _ _ _ n (a + 1) (Some err) ?w1] =>
            destruct (retryLoop cancelledText script st n (a + 1) (Some err)
                        w1) as [r1 w1']
        end.
        simpl. intros (I1 & I2 & made & slept & I3 & I4 & I5 & I6).
        split; [rewrite I1; exact F1|]. split; [rewrite I2; exact F3|].
        exists (S made), (S slept).
        rewrite I3, I4, F4, F2, backoff_S, <- app_assoc.
        split; [lia|]. split; [reflexivity|]. split; [lia|].
        destruct r1 as [e|].
        -- destruct I6 as (I6 & I7). split; [rewrite I6; exact Hco|].
           destruct I7 as [(? & ?)|[(inner & ? & ? & -> & ?)|
                                    (inner & ? & ? & -> & ? & ?)]].
           ++ left. split; [assumption|lia].
           ++ right. left. exists inner.
              replace (a + Z.of_nat (S slept)) with (a + 1 + Z.of_nat slept)
                by lia.
              repeat split; auto; lia.
           ++ right. right. exists inner. repeat split; auto; lia.
        -- lia.
      * simpl. split; [exact F1|]. split; [exact F3|]. exists 1%nat, O.
        rewrite F4, F2, app_nil_r, Nat.add_1_r, Z.add_0_r.
        split; [reflexivity|]. split; [reflexivity|]. split; [lia|].
        split; [exact Hco|]. right. left. exists err. auto.
    + simpl. split; [exact F1|]. split; [exact F3|]. exists 1%nat, O.
      rewrite F4, F2, app_nil_r, Nat.add_1_r.
      repeat split; auto; lia.
Qed.

(** The same for [downloadWithRetry]: three iterations from attempt 1. *)
Lemma downloadWithRetry_outcome (w : World) :
  let r := fst (downloadWithRetry cancelledText script st w) in
  let w' := snd (downloadWithRetry cancelledText script st w) in
  activeFiles w' = activeFiles w /\ reports w' = reports w
  /\ exists made slept : nat,
       attempts w' = (attempts w + made)%nat
       /\ sleeps w' = (sleeps w ++ backoff 1 slept)%list
       /\ (made <= 3)%nat
       /\ match r with
          | None => S slept = made
          | Some e =>
              coordinator w' = coordinator w
              /\ ((isDownloadCancelled e = true /\ S slept = made)
                  \/ (exists inner,
                        isDownloadCancelled inner = false
                        /\ isTransientError (Some inner) = false
                        /\ e = Errorf_w ("permanent error on attempt "
                                         ++ itoa (1 + Z.of_nat slept) ++ ": ")
                                        inner
                        /\ S slept = made)
                  \/ (exists inner,
                        isDownloadCancelled inner = false
                        /\ isTransientError (Some inner) = true
                        /\ e = Errorf_w "failed after 3 attempts, last error: "
                                        inner
                        /\ made = 3%nat /\ slept = 3%nat))
          end.
Proof.
  apply (retryLoop_outcome 3 1 None w). discriminate.
Qed.

End RetryOutcome.

Section WorkerFacts.

Variable cancelledText : string -> string -> string.

(** X4. Whatever the outside world does, [downloadWithRetry] calls
    [downloadFile] at least once and at most three times, sleeps a
    prefix of 1s, 2s, 3s (never more sleeps than attempts), and leaves
    the active files and the reports alone. *)
Theorem downloadWithRetry_bounds (script : Z -> Outside)
    (st : DownloadState.t) (w : World) :
  let w' := snd (downloadWithRetry cancelledText script st w) in
  activeFiles w' = activeFiles w /\ reports w' = reports w
  /\ (attempts w < attempts w' <= attempts w + 3)%nat
  /\ exists k : nat,
       (k <= attempts w' - attempts w)%nat
       /\ sleeps w'
          = (sleeps w ++ firstn k [1 * Second; 2 * Second; 3 * Second])%list.
Proof.
  destruct (downloadWithRetry_outcome cancelledText script st w)
    as (H1 & H2 & made & slept & H3 & H4 & H5 & H6).
  cbv zeta. rewrite H1, H2, H3, H4.
  assert (Hs : (slept <= made)%nat /\ (1 <= made)%nat).
  { destruct (fst (downloadWithRetry cancelledText script st w)).
    - destruct H6 as (_ & [(_ & ?)|[(? & _ & _ & _ & ?)|
                                    (? & _ & _ & _ & ? & ?)]]); lia.
    - lia. }
  split; [reflexivity|]. split; [reflexivity|]. split; [lia|].
  exists slept. split; [lia|]. f_equal.
  assert (slept = 0 \/ slept = 1 \/ slept = 2 \/ slept = 3)%nat
    as [->|[->|[->| ->]]] by lia; reflexivity.
Qed.

(** X5. When [downloadWithRetry] returns an error, the registry is as it
    was before the call, and the error is the cancellation error of the
    last attempt, passed on as it is, or it wraps the error of the last
    attempt: under "permanent error on attempt k: " with k the number of
    attempts made when that error is not transient, under "failed after
    3 attempts, last error: " after three attempts when it is. *)
Theorem downloadWithRetry_error (script : Z -> Outside)
    (st : DownloadState.t) (w : World) (e : error) :
  fst (downloadWithRetry cancelledText script st w) = Some e ->
  let w' := snd (downloadWithRetry cancelledText script st w) in
  coordinator w' = coordinator w
  /\ (isDownloadCancelled e = true
      \/ exists inner,
           Unwrap e = Some inner /\ isDownloadCancelled e = false
           /\ isDownloadCancelled inner = false
           /\ ((isTransientError (Some inner) = false
                /\ e = Errorf_w ("permanent error on attempt "
                                 ++ itoa (Z.of_nat (attempts w' - attempts w))
                                 ++ ": ") inner)
               \/ (isTransientError (Some inner) = true
                   /\ e = Errorf_w "failed after 3 attempts, last error: "
                                   inner
                   /\ attempts w' = (attempts w + 3)%nat))).
Proof.
  intros He.
  destruct (downloadWithRetry_outcome cancelledText script st w)
    as (_ & _ & made & slept & H3 & _ & _ & H6).
  rewrite He in H6. destruct H6 as (Hco & H6). cbv zeta.
  split; [exact Hco|].
  destruct H6 as [(Hc & _)|[(inner & Hc & Ht & -> & Hm)|
                            (inner & Hc & Ht & -> & Hm & _)]].
  - left. exact Hc.
  - right. exists inner. repeat split; auto. left. split; [exact Ht|].
    rewrite H3.
    replace (Z.of_nat (attempts w + made - attempts w))
      with (1 + Z.of_nat slept) by lia.
    reflexivity.
  - right. exists inner. repeat split; auto. right.
    rewrite H3, Hm. auto.
Qed.

(** What the worker does with one job: the frame of [downloadWithRetry]
    and one of three endings. *)
Lemma processJob_effect (j : Job.t) (now : Time) (script : Z -> Outside)
    (w : World) :
  let w2 := snd (processJob cancelledText j now script w) in
  (attempts w < attempts w2 <= attempts w + 3)%nat
  /\ ((reports w2 = reports w
       /\ activeFiles w2 = activeFiles w ∖ {[Job.FileID j]}
       /\ coordinator w2 = coordinator w)
      \/ (reports w2
          = (reports w ++ [handleFileFailure (Job.TransferID j)])%list
          /\ activeFiles w2 = activeFiles w ∖ {[Job.FileID j]}
          /\ coordinator w2 = coordinator w)
      \/ (reports w2
          = (reports w ++ [handleFileCompletion (Job.TransferID j)
                             (Job.FileID j)])%list
          /\ activeFiles w2 = activeFiles w)).
Proof.
  pose proof (downloadWithRetry_outcome cancelledText script
                (newDownloadState j now) w)
    as (B1 & B2 & made & slept & B3 & _ & B5 & H6).
  unfold processJob, bind.
  destruct (downloadWithRetry cancelledText script (newDownloadState j now) w)
    as [[e|] w1]; simpl in *.
  - destruct H6 as (Hco & H6).
    assert (1 <= made)%nat.
    { destruct H6 as [(_ & ?)|[(? & _ & _ & _ & ?)|
                               (? & _ & _ & _ & ? & ?)]]; lia. }
    destruct (isDownloadCancelled e); simpl;
      rewrite B1, B2, B3, Hco; (split; [lia|auto]).
  - unfold call. simpl. rewrite B1, B2, B3. split; [lia|auto].
Qed.

(** X6. A job ends in one of three ways: cancelled (no report, the file
    id leaves the active files), failed (one [handleFileFailure] for the
    job's transfer, the file id leaves the active files) or completed
    (one [handleFileCompletion] for the transfer and the file, the active
    files untouched by the worker). In the first two the registry is as
    it was. No other file id enters or leaves the active files. *)
Theorem processJob_outcome (j : Job.t) (now : Time) (script : Z -> Outside)
    (w : World) :
  let w2 := snd (processJob cancelledText j now script w) in
  (forall id, id <> Job.FileID j ->
              ((id ∈ activeFiles w2) <-> (id ∈ activeFiles w)))
  /\ ((reports w2 = reports w
       /\ (Job.FileID j ∉ activeFiles w2)
       /\ coordinator w2 = coordinator w)
      \/ (reports w2
          = (reports w ++ [handleFileFailure (Job.TransferID j)])%list
          /\ (Job.FileID j ∉ activeFiles w2)
          /\ coordinator w2 = coordinator w)
      \/ (reports w2
          = (reports w ++ [handleFileCompletion (Job.TransferID j)
                             (Job.FileID j)])%list
          /\ activeFiles w2 = activeFiles w)).
Proof.
  destruct (processJob_effect j now script w)
    as (_ & [(R & A & C)|[(R & A & C)|(R & A)]]); cbv zeta;
    rewrite R, A; (split; [intros id Hid; set_solver|]).
  - left. repeat split; [set_solver|exact C].
  - right. left. repeat split; [set_solver|exact C].
  - right. right. auto.
Qed.

(** X7. The worker stops at the shutdown signal or at the closed job
    channel: whatever is queued behind either is never looked at. *)
Theorem downloadWorker_stops (pre rest : list Received) (w : World) :
  downloadWorker cancelledText (pre ++ stopChan :: rest) w
  = downloadWorker cancelledText (pre ++ [stopChan]) w
  /\ downloadWorker cancelledText (pre ++ jobsClosed :: rest) w
     = downloadWorker cancelledText (pre ++ [jobsClosed]) w.
Proof.
  revert w. induction pre as [|[| |j now script] pre IH]; intros w;
    try (split; reflexivity).
  simpl. unfold bind.
  destruct (processJob cancelledText j now script w) as [u w1].
  apply IH.
Qed.

(** X8. A worker makes at most three attempts and at most one report
    per received job, and never adds a file id to the active files. *)
Theorem downloadWorker_bounds (inbox : list Received) (w : World) :
  let w' := snd (downloadWorker cancelledText inbox w) in
  (attempts w' <= attempts w + 3 * length inbox)%nat
  /\ (length (reports w') <= length (reports w) + length inbox)%nat
  /\ activeFiles w' ⊆ activeFiles w.
Proof.
  revert w. induction inbox as [|[| |j now script] inbox IH]; intros w;
    cbv zeta; simpl; try (repeat split; [lia|lia|set_solver]).
  unfold bind.
  pose proof (processJob_effect j now script w) as (HA & HR).
  destruct (processJob cancelledText j now script w) as [u w1].
  simpl in HA, HR. specialize (IH w1). cbv zeta in IH.
  destruct IH as (I1 & I2 & I3).
  assert ((length (reports w1) <= S (length (reports w)))%nat
          /\ activeFiles w1 ⊆ activeFiles w) as (L & S1).
  { destruct HR as [(R & A & _)|[(R & A & _)|(R & A)]]; rewrite R, A;
      rewrite ?length_app; simpl; split; try lia; set_solver. }
  repeat split; [lia|lia|set_solver].
Qed.

End WorkerFacts.

(** A 503, then aria2c exits with status 1: the error of the second
    attempt comes back wrapped, and the registry is untouched. *)
Lemma downloadWithRetry_error_witness :
  let w' := snd (downloadWithRetry Sample.cancelledText
                   (Sample.unavailableThen 1 Sample.aria2cFails) Sample.st
                   Sample.world) in
  coordinator w' = coordinator Sample.world.
Proof.
  refine (proj1 (downloadWithRetry_error Sample.cancelledText
                   (Sample.unavailableThen 1 Sample.aria2cFails) Sample.st
                   Sample.world
                   (Errorf_w "permanent error on attempt 2: "
                      (Errorf_w "aria2c failed: "
                         (errorString "exit status 1"))) _)).
  reflexivity.
Defined.

(** Files of 5 and 7 bytes, completed one after the other. *)
Lemma completeAll_adds_up_witness :
  TransferContext.DownloadedSize
    <$> coordinator
          (snd (completeAll Sample.cancelledText
                  [(Sample.completes 5, Sample.st, 5);
                   (Sample.completes 7, Sample.st, 7)]
                  (mkWorld Sample.registry ∅ [] [] 0 []))) !! 1
  = Some (0 + sumSizes [(Sample.completes 5, Sample.st, 5);
                        (Sample.completes 7, Sample.st, 7)]).
Proof.
  refine (completeAll_adds_up Sample.cancelledText 1
            [(Sample.completes 5, Sample.st, 5);
             (Sample.completes 7, Sample.st, 7)] _
            (mkWorld Sample.registry ∅ [] [] 0 []) Sample.transfer _ _ _).
  - repeat constructor; simpl; eauto 10; lia.
  - reflexivity.
  - simpl. lia.
  - unfold sumSizes. simpl. lia.
Defined.

Lemma both_read_then_both_write_witness :
  let cfg := Interleaving.run [0; 1; 0; 1]%nat
               ([Interleaving.start 1 5; Interleaving.start 1 7],
                Sample.registry) in
  Interleaving.allFinished (fst cfg) = true
  /\ TransferContext.DownloadedSize <$> (snd cfg !! 1)
     = Some (wrap_int64 (0 + 7)).
Proof.
  apply (both_read_then_both_write Sample.registry 1 Sample.transfer 5 7).
  reflexivity.
Defined.

(* ===================================================================== *)
(** ** More about [formatDuration]                                        *)
(* ===================================================================== *)

Section DurationFacts.

Lemma string_of_uint_digits (d : Decimal.uint) :
  allIn Regexp.digit (NilEmpty.string_of_uint d) = true.
Proof. induction d; simpl; auto. Qed.

(** [%d] of a number that is not negative: digits, at least one. *)
Lemma itoa_digits (n : Z) :
  0 <= n -> allIn Regexp.digit (itoa n) = true /\ itoa n <> EmptyString.
Proof.
  intros Hn. unfold itoa. destruct n as [|p|p]; [split; [reflexivity|discriminate]| |lia].
  simpl. pose proof (string_of_uint_digits (Pos.to_uint p)) as Hd.
  assert (Hnil : Pos.to_uint p <> Decimal.Nil).
  { intros E. pose proof (DecimalPos.Unsigned.to_uint_nonnil p). contradiction. }
  unfold NilZero.string_of_uint. destruct (Pos.to_uint p); try contradiction;
    (split; [exact Hd|discriminate]).
Qed.

Lemma itoa_inj (n m : Z) : itoa n = itoa m -> n = m.
Proof.
  unfold itoa. intros H. apply DecimalZ.to_int_inj.
  assert (Hi : forall z, NilZero.int_of_string
                           (NilZero.string_of_int (Z.to_int z))
                         = Some (Z.to_int z)).
  { intros z. apply NilZero.isi; destruct z; simpl; try discriminate;
      intros [= E]; exact (DecimalPos.Unsigned.to_uint_nonnil _ E). }
  pose proof (Hi n) as Hn. rewrite H, Hi in Hn. congruence.
Qed.

(** Two texts that start with digits and go on with a byte that is not a
    digit agree piece by piece. *)
Lemma digits_then_split (x x' : string) (c c' : ascii) (r r' : string) :
  allIn Regexp.digit x = true -> allIn Regexp.digit x' = true ->
  Regexp.digit c = false -> Regexp.digit c' = false ->
  x ++ String c r = x' ++ String c' r' ->
  x = x' /\ c = c' /\ r = r'.
Proof.
  intros Hx Hx' Hc Hc'. revert x' Hx'.
  induction x as [|a x IH]; intros [|a' x'] Hx'; rewrite ?append_nil,
    ?append_cons; simpl in *.
  - intros [= -> ->]. auto.
  - intros [= -> _]. apply andb_true_iff in Hx' as [Ha _]. congruence.
  - intros [= -> _]. apply andb_true_iff in Hx as [Ha _]. congruence.
  - intros [= -> E]. apply andb_true_iff in Hx as [_ Hx].
    apply andb_true_iff in Hx' as [_ Hx'].
    destruct (IH Hx x' Hx' E) as (-> & -> & ->). auto.
Qed.

(** The three shapes of the text, with the hours [h], the minutes [m]
    below 60 and the seconds [s] below 60 of the duration. *)
Lemma formatDuration_shape (seconds : Z) :
  0 <= seconds ->
  let h := seconds / 3600 in
  let m := seconds mod 3600 / 60 in
  let s := seconds mod 60 in
  0 <= h /\ 0 <= m < 60 /\ 0 <= s < 60
  /\ seconds = 3600 * h + 60 * m + s
  /\ formatDuration seconds
     = if 0 <? h then itoa h ++ "h" ++ itoa m ++ "m"
       else if 0 <? m then itoa m ++ "m" ++ itoa s ++ "s"
       else itoa s ++ "s".
Proof.
  intros H. cbv zeta. unfold formatDuration.
  destruct (Z.ltb_spec seconds 0); [lia|].
  rewrite !Z.quot_div_nonneg, !Z.rem_mod_nonneg by
      (try lia; apply Z.mod_pos_bound; lia).
  rewrite !Z.gtb_ltb.
  pose proof (Z.mod_pos_bound seconds 3600 ltac:(lia)).
  pose proof (Z.mod_pos_bound seconds 60 ltac:(lia)).
  pose proof (Z.div_mod seconds 3600 ltac:(lia)).
  pose proof (Z.div_mod (seconds mod 3600) 60 ltac:(lia)).
  assert (seconds mod 3600 mod 60 = seconds mod 60).
  { rewrite (Z.mod_eq seconds 3600) by lia.
    replace (seconds - 3600 * (seconds / 3600))
      with (seconds + (- 60 * (seconds / 3600)) * 60) by lia.
    apply Z.mod_add. lia. }
  pose proof (Z.div_pos seconds 3600 ltac:(lia) ltac:(lia)).
  pose proof (Z.div_pos (seconds mod 3600) 60 ltac:(lia) ltac:(lia)).
  assert (seconds mod 3600 / 60 < 60)
    by (apply Z.div_lt_upper_bound; lia).
  repeat split; try lia.
  rewrite (Z.quot_div_nonneg (seconds mod 3600) 60) by lia. reflexivity.
Qed.

Lemma formatDuration_nonneg_known (seconds : Z) :
  0 <= seconds -> formatDuration seconds <> "unknown".
Proof.
  intros H. destruct (formatDuration_shape seconds H)
    as (Hh & Hm & Hs & _ & ->).
  assert (D : forall n rest, 0 <= n -> itoa n ++ rest <> "unknown").
  { intros n rest Hn E. destruct (itoa_digits n Hn) as (Hd & Hne).
    destruct (itoa n) as [|c t]; [contradiction|].
    rewrite append_cons in E. injection E as -> _.
    simpl in Hd. discriminate Hd. }
  destruct (0 <? _); [apply D; lia|].
  destruct (0 <? _); apply D; lia.
Qed.

(** X11. [formatDuration] answers "unknown" for the negative numbers of
    seconds and for no others. *)
Theorem formatDuration_unknown_iff (seconds : Z) :
  formatDuration seconds = "unknown" <-> seconds < 0.
Proof.
  split.
  - intros E. destruct (Z.lt_ge_cases seconds 0) as [|H]; [assumption|].
    exfalso. exact (formatDuration_nonneg_known seconds H E).
  - intros H. unfold formatDuration.
    destruct (Z.ltb_spec seconds 0); [reflexivity|lia].
Qed.

(** X12. Two durations that are not negative get the same text exactly
    when they are equal, or both are an hour or more and fall into the
    same minute: below one hour the text tells the duration to the
    second, from one hour on to the minute. *)
Theorem formatDuration_same_text (a b : Z) :
  0 <= a -> 0 <= b ->
  formatDuration a = formatDuration b
  <-> a = b \/ (3600 <= a /\ 3600 <= b /\ a / 60 = b / 60).
Proof.
  intros Ha Hb.
  destruct (formatDuration_shape a Ha) as (Hh & Hm & Hs & Ea & Fa).
  destruct (formatDuration_shape b Hb) as (Hh' & Hm' & Hs' & Eb & Fb).
  set (h := a / 3600) in *. set (m := a mod 3600 / 60) in *.
  set (s := a mod 60) in *.
  set (h' := b / 3600) in *. set (m' := b mod 3600 / 60) in *.
  set (s' := b mod 60) in *.
  assert (Da : a / 60 = 60 * h + m).
  { rewrite Ea. replace (3600 * h + 60 * m + s) with (s + (60 * h + m) * 60)
      by lia.
    rewrite Z.div_add by lia. rewrite Z.div_small by lia. lia. }
  assert (Db : b / 60 = 60 * h' + m').
  { rewrite Eb.
    replace (3600 * h' + 60 * m' + s') with (s' + (60 * h' + m') * 60) by lia.
    rewrite Z.div_add by lia. rewrite Z.div_small by lia. lia. }
  assert (Sep : forall c, In c ["h"; "m"; "s"]%char -> Regexp.digit c = false).
  { intros c [<-|[<-|[<-|[]]]]; reflexivity. }
  assert (Split : forall x y c c' r r',
             0 <= x -> 0 <= y -> In c ["h"; "m"; "s"]%char ->
             In c' ["h"; "m"; "s"]%char ->
             itoa x ++ String c r = itoa y ++ String c' r' ->
             x = y /\ c = c' /\ r = r').
  { intros x y c c' r r' Hx Hy Hc Hc' E.
    destruct (digits_then_split _ _ _ _ _ _
                (proj1 (itoa_digits x Hx)) (proj1 (itoa_digits y Hy))
                (Sep c Hc) (Sep c' Hc') E) as (E1 & E2 & E3).
    split; [apply itoa_inj, E1|auto]. }
  rewrite Fa, Fb. split.
  - destruct (Z.ltb_spec 0 h), (Z.ltb_spec 0 h');
      [|destruct (Z.ltb_spec 0 m')|destruct (Z.ltb_spec 0 m)
       |destruct (Z.ltb_spec 0 m), (Z.ltb_spec 0 m')];
      intros E; rewrite ?append_cons, ?append_nil in E;
      repeat match goal with
             | E : itoa _ ++ String _ _ = itoa _ ++ String _ _ |- _ =>
                 apply Split in E; [|lia|lia|simpl; tauto|simpl; tauto];
                 destruct E as (? & ? & E); try congruence
             end;
      solve [right; lia | left; lia].
  - intros [<-|(H1 & H2 & E)].
    + subst h' m' s'. reflexivity.
    + assert (0 < h) by (subst h; apply Z.div_str_pos; lia).
      assert (0 < h') by (subst h'; apply Z.div_str_pos; lia).
      destruct (Z.ltb_spec 0 h), (Z.ltb_spec 0 h'); try lia.
      assert (h = h' /\ m = m') as (-> & ->) by lia. reflexivity.
Qed.

End DurationFacts.

(** 3725 and 3779 seconds are both shown as "1h2m". *)
Lemma formatDuration_same_text_witness :
  formatDuration 3725 = formatDuration 3779.
Proof.
  apply (proj2 (formatDuration_same_text 3725 3779 ltac:(lia) ltac:(lia))).
  right. repeat split; lia.
Defined.

(* ===================================================================== *)
(** ** More about the dashboard entries                                   *)
(* ===================================================================== *)

Section EntryFacts.

Lemma Qpositive_num (x : Q) : Qpositive x = true <-> 0 < Qnum x.
Proof.
  unfold Qpositive, Qle_bool. simpl. rewrite negb_true_iff, Z.leb_gt. lia.
Qed.

Lemma Qnum_div_pos (a b : Q) :
  0 < Qnum b -> Qnum (a / b) = Qnum a * Z.pos (Qden b).
Proof.
  destruct b as [[|p|p] d]; simpl; intros H; lia.
Qed.


Lemma Qnum_MB (n : Z) : Qnum (inject_Z n / 1024 / 1024) = n.
Proof. simpl. lia. Qed.

Lemma Qnum_Seconds (d : Duration) : Qnum (Seconds d) = d.
Proof. unfold Seconds, Second. simpl. lia. Qed.

Lemma Since_positive (now t : Time) : 0 < Since now t <-> t < now.
Proof. unfold Since, Sub. lia. Qed.

(** X13. While [0 <= DownloadedSize <= TotalSize] and the total is
    known, the percentage of a dashboard entry lies between 0 and 100. *)
Theorem downloadInfo_percent_bounds (now : Time) (ctx : TransferContext.t) :
  0 <= TransferContext.DownloadedSize ctx <= TransferContext.TotalSize ctx ->
  0 < TransferContext.TotalSize ctx ->
  (0 <= DownloadInfo.ProgressPercent (downloadInfo now ctx) <= 100)%Q.
Proof.
  intros H HT. unfold downloadInfo.
  destruct (if _ && _ then _ else _) as [speedMBps eta].
  cbn [DownloadInfo.ProgressPercent].
  destruct (TransferContext.TotalSize ctx) as [|p|p]; try lia.
  unfold Qle. simpl. lia.
Qed.

(** X14. Nothing downloaded yet, a zero start time, or a start time
    that is not in the past: the entry shows speed 0 and the ETA
    "calculating...". A started transfer that is complete shows the ETA
    "0s". *)
Theorem downloadInfo_eta_edges (now : Time) (ctx : TransferContext.t) :
  (TransferContext.DownloadedSize ctx <= 0
   \/ TransferContext.StartTime ctx = 0
   \/ now <= TransferContext.StartTime ctx ->
   DownloadInfo.SpeedMBps (downloadInfo now ctx) = 0%Q
   /\ DownloadInfo.ETA (downloadInfo now ctx) = "calculating...")
  /\ (0 < TransferContext.DownloadedSize ctx ->
      TransferContext.DownloadedSize ctx = TransferContext.TotalSize ctx ->
      TransferContext.StartTime ctx <> 0 ->
      TransferContext.StartTime ctx < now ->
      DownloadInfo.ETA (downloadInfo now ctx) = "0s").
Proof.
  unfold downloadInfo, IsZero. split.
  - intros H.
    destruct (Z.eqb_spec (TransferContext.StartTime ctx) 0) as [E|E];
      simpl; [auto|].
    destruct (Z.gtb_spec (TransferContext.DownloadedSize ctx) 0);
      simpl; [|auto].
    destruct (Qpositive (Seconds _)) eqn:P; simpl; [|auto].
    apply Qpositive_num in P. rewrite Qnum_Seconds in P.
    apply (proj1 (Since_positive _ _)) in P. lia.
  - intros HD HE HS Hn.
    destruct (Z.eqb_spec (TransferContext.StartTime ctx) 0); [contradiction|].
    destruct (Z.gtb_spec (TransferContext.DownloadedSize ctx) 0); [|lia].
    simpl.
    assert (P : 0 < Qnum (Seconds (Since now (TransferContext.StartTime ctx)))).
    { rewrite Qnum_Seconds. apply Since_positive, Hn. }
    rewrite (proj2 (Qpositive_num _) P).
    assert (P2 : 0 < Qnum (inject_Z (TransferContext.DownloadedSize ctx)
                           / 1024 / 1024
                           / Seconds (Since now (TransferContext.StartTime ctx)))).
    { rewrite (Qnum_div_pos _ _ P), Qnum_MB. lia. }
    rewrite (proj2 (Qpositive_num _) P2). cbn [DownloadInfo.ETA].
    replace (truncate _) with 0; [reflexivity|].
    unfold truncate. rewrite (Qnum_div_pos _ _ P2). rewrite HE.
    replace (Qnum _) with 0; [reflexivity|].
    simpl. lia.
Qed.


End EntryFacts.

(** A transfer of 200 MiB, half of it downloaded. *)
Lemma downloadInfo_percent_bounds_witness :
  (0 <= DownloadInfo.ProgressPercent
          (downloadInfo 11000000000%Z Sample.halfDone) <= 100)%Q.
Proof.
  apply (downloadInfo_percent_bounds 11000000000 Sample.halfDone);
    simpl; lia.
Defined.

Lemma downloadInfo_eta_edges_witness :
  DownloadInfo.SpeedMBps (downloadInfo 11000000000 Sample.transfer) = 0%Q
  /\ DownloadInfo.ETA (downloadInfo 11000000000 Sample.transfer)
     = "calculating...".
Proof.
  apply (proj1 (downloadInfo_eta_edges 11000000000 Sample.transfer)).
  left. simpl. lia.
Defined.


(* ===================================================================== *)
(** ** More about progress lines                                          *)
(* ===================================================================== *)

Section ParseFacts.

(** A pattern that starts with a literal byte cannot match where the
    line has another byte, so [FindStringSubmatch] moves on. *)
Lemma FindStringSubmatch_skip (c0 : ascii) (l : string)
    (prog : list Regexp.node) (groups : nat) (pre s : string) :
  allIn (fun c => negb (Ascii.eqb c c0)) pre = true ->
  Regexp.FindStringSubmatch (Regexp.Lit (String c0 l) :: prog) groups
    (pre ++ s)
  = Regexp.FindStringSubmatch (Regexp.Lit (String c0 l) :: prog) groups s.
Proof.
  induction pre as [|c pre IH]; intros H; [reflexivity|].
  simpl in H. apply andb_true_iff in H as [Hc Hpre].
  rewrite append_cons. cbn [Regexp.FindStringSubmatch Regexp.matchHere
                              stripPrefix].
  apply negb_true_iff in Hc. rewrite Ascii.eqb_sym in Hc. rewrite Hc.
  apply IH, Hpre.
Qed.

(** X16. Text in front of a line changes nothing about how the line is
    parsed, as long as that text holds no opening bracket. *)
Theorem parseProgressLine_leading_text (pre line : string) :
  allIn (fun c => negb (Ascii.eqb c "[")) pre = true ->
  parseProgressLine (pre ++ line) = parseProgressLine line.
Proof.
  intros H. unfold parseProgressLine, progressRegex.
  rewrite (FindStringSubmatch_skip "[" "#" _ 4 pre line H). reflexivity.
Qed.









End ParseFacts.

(** aria2c's line behind a timestamp. *)
Lemma parseProgressLine_leading_text_witness :
  parseProgressLine ("12:00:01 " ++ Sample.progressLine)
  = parseProgressLine Sample.progressLine.
Proof.
  apply (parseProgressLine_leading_text "12:00:01 " Sample.progressLine).
  reflexivity.
Defined.


(* ===================================================================== *)
(** ** More about the monitor                                             *)
(* ===================================================================== *)

Section MonitorFacts.

Variable ProgressUpdateInterval : Duration.



End MonitorFacts.

Section LogHistory.

Variable ProgressUpdateInterval : Duration.
Variable st : DownloadState.t.
Variable now : Time.
Variable lines : list Scanned.

(** A progress line is only logged for a line that exists, parses and
    passes the guard. *)
Lemma progressLogged_true (i : nat) :
  progressLogged ProgressUpdateInterval st now lines i = true ->
  exists sc p,
    lines !! i = Some sc /\ parseProgressLine (line sc) = Some p
    /\ logDue ProgressUpdateInterval
         (monitorAfter ProgressUpdateInterval st now lines i) sc p = true.
Proof.
  destruct (lines !! i) as [sc|] eqn:Hsc.
  - rewrite (progressLogged_step _ st now lines i sc Hsc).
    destruct (parseProgressLine (line sc)) as [p|] eqn:Hp; [|discriminate].
    intros H. exists sc, p. auto.
  - unfold progressLogged, monitorAfter.
    apply lookup_ge_None_1 in Hsc.
    rewrite !take_ge by lia. rewrite drop_all. discriminate.
Qed.

(** After a logged progress line, the last logged one is that line or a
    later one. *)
Lemma lastLogged_after (i j : nat) :
  (i < j)%nat ->
  progressLogged ProgressUpdateInterval st now lines i = true ->
  exists k sc p,
    (i <= k < j)%nat /\ lines !! k = Some sc
    /\ parseProgressLine (line sc) = Some p
    /\ lastLogged ProgressUpdateInterval st now lines j
       = (nowLogged sc, progress p).
Proof.
  intros Hij Hi. induction j as [|j IH]; [lia|].
  cbn [lastLogged].
  destruct (progressLogged ProgressUpdateInterval st now lines j) eqn:Hj.
  - destruct (progressLogged_true j Hj) as (sc & p & Hsc & Hp & _).
    exists j, sc, p. rewrite Hsc, Hp. repeat split; auto; lia.
  - assert (i < j)%nat.
    { destruct (Nat.eq_dec i j) as [->|]; [congruence|lia]. }
    destruct (IH ltac:(assumption)) as (k & sc & p & Hk & Hsc & Hp & E).
    exists k, sc, p. repeat split; auto; lia.
Qed.

(** X19. When every progress line the monitor scans reports the same
    percentage, it logs at most one of them, however much time passes. *)
Theorem stuck_percentage_logged_once (q : Q) (i j : nat) :
  (forall k sc p, lines !! k = Some sc ->
                  parseProgressLine (line sc) = Some p ->
                  (progress p == q)%Q) ->
  (i < j)%nat ->
  progressLogged ProgressUpdateInterval st now lines i = true ->
  progressLogged ProgressUpdateInterval st now lines j = false.
Proof.
  intros Hq Hij Hi. apply not_true_is_false. intros Hj.
  destruct (progressLogged_true j Hj) as (sc & p & Hsc & Hp & Hdue).
  destruct (lastLogged_after i j Hij Hi) as (k & sck & pk & _ & Hk & Hpk & E).
  assert (Hlen : (j <= length lines)%nat).
  { apply Nat.lt_le_incl, lookup_lt_is_Some_1. eauto. }
  pose proof (locals_are_lastLogged ProgressUpdateInterval st now lines j
                Hlen) as L.
  rewrite E in L. injection L as _ L.
  unfold logDue in Hdue. rewrite L in Hdue.
  apply andb_true_iff in Hdue as [_ Hne]. apply negb_true_iff in Hne.
  assert (Heq : Qeq_bool (progress p) (progress pk) = true).
  { apply Qeq_bool_iff. rewrite (Hq j sc p Hsc Hp), (Hq k sck pk Hk Hpk).
    reflexivity. }
  congruence.
Qed.

(** X20. With a clock that does not run backwards and an interval that
    is not negative, two logged progress lines are at least the interval
    apart: from the reading taken after the earlier one was written to
    the reading taken when the later one was checked. *)
Theorem progress_logs_spaced (i j : nat) (sci scj : Scanned) :
  0 <= ProgressUpdateInterval ->
  (forall a b sca scb, (a <= b)%nat -> lines !! a = Some sca ->
                       lines !! b = Some scb ->
                       nowLogged sca <= nowLogged scb) ->
  (i < j)%nat -> lines !! i = Some sci -> lines !! j = Some scj ->
  progressLogged ProgressUpdateInterval st now lines i = true ->
  progressLogged ProgressUpdateInterval st now lines j = true ->
  ProgressUpdateInterval <= nowSince scj - nowLogged sci.
Proof.
  intros HI Hmono Hij Hsci Hscj Hi Hj.
  destruct (progressLogged_true j Hj) as (sc & p & Hsc & Hp & Hdue).
  rewrite Hscj in Hsc. injection Hsc as <-.
  destruct (lastLogged_after i j Hij Hi) as (k & sck & pk & Hk & Hsck & _ & E).
  assert (Hlen : (j <= length lines)%nat).
  { apply Nat.lt_le_incl, lookup_lt_is_Some_1. eauto. }
  pose proof (locals_are_lastLogged ProgressUpdateInterval st now lines j
                Hlen) as L.
  rewrite E in L. injection L as L _.
  unfold logDue in Hdue. rewrite L in Hdue.
  apply andb_true_iff in Hdue as [Hdue _]. apply Z.leb_le in Hdue.
  pose proof (Hmono i k sci sck ltac:(lia) Hsci Hsck).
  unfold Since, Sub in Hdue. lia.
Qed.

End LogHistory.

(** Two lines at 50 percent, far apart: only the first is logged. *)
Lemma stuck_percentage_logged_once_witness :
  progressLogged Second Sample.st 0
    [ mkScanned "[#1 50% DL:1MiB ETA:9s]" 6000000000 6000000000 6000000000;
      mkScanned "[#1 50% DL:2MiB ETA:5s]" 99000000000 99000000000
                99000000000 ] 1
  = false.
Proof.
  apply (stuck_percentage_logged_once Second Sample.st 0 _ 50%Q 0 1).
  - intros [|[|k]] sc p Hsc Hp; try discriminate Hsc;
      injection Hsc as <-; vm_compute in Hp; injection Hp as <-;
      reflexivity.
  - lia.
  - vm_compute. reflexivity.
Defined.

(** With an interval of one second both sample lines are logged; they
    are two seconds apart. *)
Lemma progress_logs_spaced_witness :
  Second <= 8000000000 - 6000000000.
Proof.
  refine (progress_logs_spaced Second Sample.st 0 Sample.scans 0 1
            (mkScanned Sample.progressLine 6000000000 6000000000 6000000000)
            (mkScanned Sample.fastLine 8000000000 8000000000 8000000000)
            _ _ _ eq_refl eq_refl _ _).
  - unfold Second. lia.
  - intros [|[|a]] [|[|b]] sca scb Hab Ha Hb; try discriminate Ha;
      try discriminate Hb; try lia;
      injection Ha as <-; injection Hb as <-; simpl; lia.
  - lia.
  - vm_compute. reflexivity.
  - vm_compute. reflexivity.
Defined.
